(** * Subscription reconciler: shallow embedding and verified properties

    Source: pkg/reconciler/subscription/subscription.go.

    The reconciler keeps one Subscription synchronised with the Channel it
    targets.  Go pointers to optional values are [option]; a Go slice is a
    [list]; the [*v1.Subscription] that every method mutates through its
    pointer is the mutable cell of a small state monad, together with the
    log of the calls made to the external collaborators (trackers, listers,
    destination resolver, dynamic client).  The collaborators themselves are
    the fields of an [Env] record. *)

From Stdlib Require Import String List ZArith Bool Lia.
Import ListNotations.

Local Open Scope string_scope.
Local Open Scope list_scope.

(** ** Errors and events *)

(** corev1.EventTypeNormal / corev1.EventTypeWarning. *)
Inductive EventType := EventTypeNormal | EventTypeWarning.

(** metav1.StatusReason, as far as apierrors.IsNotFound distinguishes it. *)
Inductive StatusReason := StatusReasonNotFound | StatusReasonConflict | StatusReasonOther.

(** schema.GroupVersionKind. *)
Module GroupVersionKind.
Record t := mk { Group : string; Version : string; Kind : string }.
End GroupVersionKind.

(** A Go [error] value.  [StatusError] is an API-server error, [Errorf] the
    result of fmt.Errorf, [NewEvent] a pkgreconciler.ReconcilerEvent; format
    strings are kept with their arguments instead of being rendered (an
    object argument is kept as its kind). *)
Inductive error :=
| StatusError (reason : StatusReason) (message : string)
| Errorf (format : string) (args : list Arg)
| NewEvent (eventtype : EventType) (reason : string) (format : string) (args : list Arg)
with Arg :=
| ArgString (s : string)
| ArgError (e : error)
| ArgObject (gvk : GroupVersionKind.t).

(** A Go [(T, error)] result whose [T] is meaningful only when the error is nil. *)
Inductive result (A : Type) :=
| Ok (a : A)
| Err (e : error).
Arguments Ok {A} a.
Arguments Err {A} e.

(** apierrors.IsNotFound, on the errors the reconciler tests with it: the
    ones a lister or the dynamic client returned, not wrapped in an event. *)
Definition IsNotFound (err : error) : bool :=
  match err with
  | StatusError StatusReasonNotFound _ => true
  | _ => false
  end.

Definition subscriptionUpdateStatusFailed := "UpdateFailed".
Definition physicalChannelSyncFailed := "PhysicalChannelSyncFailed".
Definition subscriptionNotMarkedReadyByChannel := "SubscriptionNotMarkedReadyByChannel".
Definition channelReferenceFailed := "ChannelReferenceFailed".
Definition subscriberResolveFailed := "SubscriberResolveFailed".
Definition replyResolveFailed := "ReplyResolveFailed".
Definition deadLetterSinkResolveFailed := "DeadLetterSinkResolveFailed".

(** ** Data model *)

(** types.UID and apis.URL; a URL is identified with its String() rendering,
    which is all the reconciler ever compares. *)
Definition UID := string.
Definition URL := string.

(** corev1.ConditionStatus. *)
Inductive ConditionStatus := ConditionTrue | ConditionFalse | ConditionUnknown.

Definition v1ChannelGVK : GroupVersionKind.t :=
  GroupVersionKind.mk "messaging.knative.dev" "v1" "Channel".

Module KReference.
Record t := mk {
  Kind : string;
  Namespace : string;
  Name : string;
  APIVersion : string;
  Group : string
}.
End KReference.

(** duckv1.Destination: a typed reference or a direct URI (spec, data model). *)
Module Destination.
Record t := mk { Ref : option KReference.t; URI : option URL }.
Definition empty : t := mk None None.
End Destination.

(** eventingduckv1.DeliverySpec. *)
Module DeliverySpec.
Record t := mk {
  DeadLetterSink : option Destination.t;
  Retry : option Z;
  Timeout : option string;
  BackoffPolicy : option string;
  BackoffDelay : option string;
  RetryAfterMax : option string
}.
(** The Go zero value [DeliverySpec{}]. *)
Definition zero : t := mk None None None None None None.
End DeliverySpec.

(** eventingduckv1.SubscriberSpec: one entry of a Channel's subscriber list. *)
Module SubscriberSpec.
Record t := mk {
  UID : UID;
  Generation : Z;
  SubscriberURI : option URL;
  ReplyURI : option URL;
  Delivery : option DeliverySpec.t
}.
End SubscriberSpec.

(** eventingduckv1.SubscriberStatus. *)
Module SubscriberStatus.
Record t := mk {
  UID : UID;
  ObservedGeneration : Z;
  Ready : ConditionStatus;
  Message : string
}.
End SubscriberStatus.

(** eventingduckv1.Channelable, flattened to the fields the reconciler reads:
    TypeMeta (as its GroupVersionKind), ObjectMeta.Name, Spec.Subscribers,
    Spec.Delivery, Status.Subscribers and Status.DeadLetterSinkURI. *)
Module Channelable.
Record t := mk {
  GVK : GroupVersionKind.t;
  Name : string;
  Subscribers : list SubscriberSpec.t;
  Delivery : option DeliverySpec.t;
  StatusSubscribers : list SubscriberStatus.t;
  StatusDeadLetterSinkURI : option URL
}.
Definition withSubscribers (c : t) (l : list SubscriberSpec.t) : t :=
  mk (GVK c) (Name c) l (Delivery c) (StatusSubscribers c) (StatusDeadLetterSinkURI c).
End Channelable.

(** v1.Channel, the channel-class object: its aggregate readiness and the
    pointer to the backing channel (Status.Channel). *)
Module Channel.
Record t := mk {
  Name : string;
  Ready : ConditionStatus;
  StatusChannel : option KReference.t
}.
(** Modelled from the spec: ChannelStatus.IsReady lives in the messaging/v1
    API package; the spec calls it the aggregate readiness flag. *)
Definition IsReady (c : t) : bool :=
  match Ready c with ConditionTrue => true | _ => false end.
End Channel.

(** What a lister hands back: a runtime.Object that either is a Channelable
    or is something else of a known kind. *)
Inductive RuntimeObject :=
| ChannelableObject (c : Channelable.t)
| OtherObject (gvk : GroupVersionKind.t).

Definition GetObjectKind (obj : RuntimeObject) : GroupVersionKind.t :=
  match obj with
  | ChannelableObject c => Channelable.GVK c
  | OtherObject gvk => gvk
  end.

(** apis.Condition, as far as the reconciler writes it. *)
Module Condition.
Record t := mk {
  Status : ConditionStatus;
  Reason : string;
  MessageFormat : string;
  MessageArgs : list Arg
}.
End Condition.

Module PhysicalSubscription.
Record t := mk {
  SubscriberURI : option URL;
  ReplyURI : option URL;
  DeadLetterSinkURI : option URL
}.
End PhysicalSubscription.

(** v1.SubscriptionStatus: the three dependent conditions and the physical
    subscription.  A condition that was never marked is [None]. *)
Module SubscriptionStatus.
Record t := mk {
  ReferencesResolved : option Condition.t;
  AddedToChannel : option Condition.t;
  ChannelReady : option Condition.t;
  Physical : PhysicalSubscription.t
}.
End SubscriptionStatus.

(** v1.Subscription: ObjectMeta, Spec and Status flattened.  The deletion
    timestamp is a [*metav1.Time]; a time is its offset from the zero
    instant. *)
Module Subscription.
Record t := mk {
  Name : string;
  Namespace : string;
  UID : UID;
  Generation : Z;
  DeletionTimestamp : option Z;
  SpecChannel : KReference.t;
  SpecSubscriber : option Destination.t;
  SpecReply : option Destination.t;
  SpecDelivery : option DeliverySpec.t;
  Status : SubscriptionStatus.t
}.
Definition withStatus (s : t) (st : SubscriptionStatus.t) : t :=
  mk (Name s) (Namespace s) (UID s) (Generation s) (DeletionTimestamp s)
     (SpecChannel s) (SpecSubscriber s) (SpecReply s) (SpecDelivery s) st.
End Subscription.

(** metav1.Time.IsZero on a possibly nil pointer. *)
Definition IsZero (t : option Z) : bool :=
  match t with
  | None => true
  | Some z => (z =? 0)%Z
  end.

Definition isSome {A : Type} (o : option A) : bool :=
  match o with Some _ => true | None => false end.

(** ** Pure helpers of the reconciler *)

(** isNilOrEmptyDestination: nil, or semantically equal to the zero
    Destination (both pointers nil). *)
Definition isNilOrEmptyDestination (destination : option Destination.t) : bool :=
  match destination with
  | None => true
  | Some d => negb (isSome (Destination.Ref d)) && negb (isSome (Destination.URI d))
  end.

Definition PhysicalDLS (sub : Subscription.t) : option URL :=
  PhysicalSubscription.DeadLetterSinkURI (SubscriptionStatus.Physical (Subscription.Status sub)).

(** The guard both branches of deliverySpec use: one of the five retry
    fields is set. *)
Definition anyRetryField (d : DeliverySpec.t) : bool :=
  isSome (DeliverySpec.BackoffDelay d) ||
  isSome (DeliverySpec.Retry d) ||
  isSome (DeliverySpec.BackoffPolicy d) ||
  isSome (DeliverySpec.Timeout d) ||
  isSome (DeliverySpec.RetryAfterMax d).

(** The five assignments [delivery.X = src.X]; the dead-letter sink of
    [delivery] is kept. *)
Definition copyRetryFields (delivery src : DeliverySpec.t) : DeliverySpec.t :=
  DeliverySpec.mk (DeliverySpec.DeadLetterSink delivery)
                  (DeliverySpec.Retry src)
                  (DeliverySpec.Timeout src)
                  (DeliverySpec.BackoffPolicy src)
                  (DeliverySpec.BackoffDelay src)
                  (DeliverySpec.RetryAfterMax src).

(** The first statement of both branches: a policy holding only the
    Subscription's resolved dead-letter sink, or nil. *)
Definition deadLetterOnly (sub : Subscription.t) : option DeliverySpec.t :=
  match PhysicalDLS sub with
  | Some uri =>
      Some (DeliverySpec.mk (Some (Destination.mk None (Some uri))) None None None None None)
  | None => None
  end.

Definition orZero (delivery : option DeliverySpec.t) : DeliverySpec.t :=
  match delivery with
  | Some d => d
  | None => DeliverySpec.zero
  end.

Definition deliverySpec (sub : Subscription.t) (channel : Channelable.t) : option DeliverySpec.t :=
  match Subscription.SpecDelivery sub, Channelable.Delivery channel with
  | None, Some chd =>
      let delivery := deadLetterOnly sub in
      if anyRetryField chd
      then Some (copyRetryFields (orZero delivery) chd)
      else delivery
  | sd, _ =>
      let delivery := deadLetterOnly sub in
      match sd with
      | Some subd =>
          if anyRetryField subd
          then Some (copyRetryFields (orZero delivery) subd)
          else delivery
      | None => delivery
      end
  end.

(** The entry updateChannelAddSubscription writes for [sub]. *)
Definition toAdd (sub : Subscription.t) (channel : Channelable.t) : SubscriberSpec.t :=
  let phys := SubscriptionStatus.Physical (Subscription.Status sub) in
  SubscriberSpec.mk (Subscription.UID sub)
                    (Subscription.Generation sub)
                    (PhysicalSubscription.SubscriberURI phys)
                    (PhysicalSubscription.ReplyURI phys)
                    (deliverySpec sub channel).

(** The loop of updateChannelAddSubscription over the subscriber slice: the
    first entry with the Subscription's UID gets its generation, URIs and
    delivery overwritten (its UID stays) and the loop returns; when the loop
    ends without a match the new entry is appended. *)
Fixpoint addLoop (uid : UID) (entry : SubscriberSpec.t) (l : list SubscriberSpec.t)
  : list SubscriberSpec.t :=
  match l with
  | [] => [entry]
  | v :: rest =>
      if String.eqb (SubscriberSpec.UID v) uid
      then SubscriberSpec.mk (SubscriberSpec.UID v)
                             (SubscriberSpec.Generation entry)
                             (SubscriberSpec.SubscriberURI entry)
                             (SubscriberSpec.ReplyURI entry)
                             (SubscriberSpec.Delivery entry) :: rest
      else v :: addLoop uid entry rest
  end.

Definition updateChannelAddSubscription (channel : Channelable.t) (sub : Subscription.t)
  : Channelable.t :=
  Channelable.withSubscribers channel
    (addLoop (Subscription.UID sub) (toAdd sub channel) (Channelable.Subscribers channel)).

(** The loop of updateChannelRemoveSubscription: the first entry with the
    Subscription's UID is cut out and the loop returns. *)
Fixpoint removeLoop (uid : UID) (l : list SubscriberSpec.t) : list SubscriberSpec.t :=
  match l with
  | [] => []
  | v :: rest =>
      if String.eqb (SubscriberSpec.UID v) uid
      then rest
      else v :: removeLoop uid rest
  end.

Definition updateChannelRemoveSubscription (channel : Channelable.t) (sub : Subscription.t)
  : Channelable.t :=
  Channelable.withSubscribers channel
    (removeLoop (Subscription.UID sub) (Channelable.Subscribers channel)).

(** getSubStatus: the first status entry matching the Subscription's UID and
    generation, or an error. *)
Definition statusMatches (subscription : Subscription.t) (s : SubscriberStatus.t) : bool :=
  String.eqb (SubscriberStatus.UID s) (Subscription.UID subscription) &&
  (SubscriberStatus.ObservedGeneration s =? Subscription.Generation subscription)%Z.

Fixpoint getSubStatusLoop (subscription : Subscription.t) (l : list SubscriberStatus.t)
  : option SubscriberStatus.t :=
  match l with
  | [] => None
  | s :: rest =>
      if statusMatches subscription s
      then Some (SubscriberStatus.mk (SubscriberStatus.UID s)
                                     (SubscriberStatus.ObservedGeneration s)
                                     (SubscriberStatus.Ready s)
                                     (SubscriberStatus.Message s))
      else getSubStatusLoop subscription rest
  end.

Definition getSubStatus (subscription : Subscription.t) (channel : Channelable.t)
  : result SubscriberStatus.t :=
  match getSubStatusLoop subscription (Channelable.StatusSubscribers channel) with
  | Some ss => Ok ss
  | None =>
      Err (Errorf "subscription %q not present in channel %q subscriber's list"
                  [ArgString (Subscription.Name subscription);
                   ArgString (Channelable.Name channel)])
  end.

(** ** External collaborators *)

(** tracker.Reference. *)
Module TrackerReference.
Record t := mk {
  APIVersion : string;
  Kind : string;
  Namespace : string;
  Name : string
}.
End TrackerReference.

(** A lister obtained from the channelable tracker:
    [chLister.ByNamespace(ns).Get(name)]. *)
Definition Lister := string -> string -> result RuntimeObject.

(** A dynamic resource client restricted to
    [Patch(ctx, name, types.MergePatchType, patch, opts)]; the patched object
    it returns is only logged by the reconciler. *)
Definition ResourceClient := string -> string -> result unit.

(** The fields of [Reconciler], the feature flag read from the context and
    the two library functions the reconciler relies on.  A merge patch is the
    byte string of its JSON text. *)
Record Env := mkEnv {
  KReferenceGroupEnabled : bool;
  ResolveGroup : KReference.t -> result KReference.t;
  TrackInNamespaceKReference : Subscription.t -> KReference.t -> option error;
  ListerForKReference : KReference.t -> result Lister;
  TrackReference : TrackerReference.t -> Subscription.t -> option error;
  ChannelsGet : string -> string -> result Channel.t;
  SetDefaults : string -> Destination.t -> Destination.t;
  URIFromDestinationV1 : Destination.t -> Subscription.t -> result URL;
  CreateMergePatch : Channelable.t -> Channelable.t -> result string;
  ResourceInterface : string -> GroupVersionKind.t -> result ResourceClient
}.

(** One entry of the log of collaborator calls, in program order. *)
Inductive Call :=
| CallResolveGroup (ref : KReference.t)
| CallTrackInNamespaceKReference (ref : KReference.t)
| CallListerForKReference (ref : KReference.t)
| CallListerGet (ref : KReference.t) (namespace name : string)
| CallTrackReference (ref : TrackerReference.t)
| CallChannelsGet (namespace name : string)
| CallURIFromDestinationV1 (destination : Destination.t)
| CallResourceInterface (namespace : string) (gvk : GroupVersionKind.t)
| CallPatch (namespace : string) (gvk : GroupVersionKind.t) (name : string) (patch : string).

(** A fetch through a channelable lister. *)
Definition isFetch (c : Call) : bool :=
  match c with CallListerGet _ _ _ => true | _ => false end.

(** A write against the resource store. *)
Definition isWrite (c : Call) : bool :=
  match c with CallPatch _ _ _ _ => true | _ => false end.

(** ** The state monad of one reconcile invocation *)

Record Machine := mkMachine {
  sub : Subscription.t;
  calls : list Call
}.

Definition M (A : Type) : Type := Machine -> A * Machine.

Definition ret {A : Type} (a : A) : M A := fun m => (a, m).

Definition bind {A B : Type} (c : M A) (k : A -> M B) : M B :=
  fun m => let (a, m') := c m in k a m'.

Declare Scope reconcile_scope.
Delimit Scope reconcile_scope with reconcile.
Notation "x <- c ;; k" := (bind c (fun x => k))
  (at level 61, c at next level, right associativity) : reconcile_scope.
Notation "c ;; k" := (bind c (fun _ => k))
  (at level 61, right associativity) : reconcile_scope.
Local Open Scope reconcile_scope.

Definition getSub : M Subscription.t := fun m => (sub m, m).

Definition modifyStatus (f : SubscriptionStatus.t -> SubscriptionStatus.t) : M unit :=
  fun m => (tt, mkMachine (Subscription.withStatus (sub m) (f (Subscription.Status (sub m))))
                          (calls m)).

Definition record (c : Call) : M unit :=
  fun m => (tt, mkMachine (sub m) (calls m ++ [c])).

(** The writes and fetches a run has issued. *)
Definition writes (m : Machine) : list Call := filter isWrite (calls m).
Definition fetches (m : Machine) : list Call := filter isFetch (calls m).

(** ** Condition helpers of SubscriptionStatus *)

Definition setReferencesResolved (c : Condition.t) (st : SubscriptionStatus.t) : SubscriptionStatus.t :=
  SubscriptionStatus.mk (Some c) (SubscriptionStatus.AddedToChannel st)
                        (SubscriptionStatus.ChannelReady st) (SubscriptionStatus.Physical st).

Definition setAddedToChannel (c : Condition.t) (st : SubscriptionStatus.t) : SubscriptionStatus.t :=
  SubscriptionStatus.mk (SubscriptionStatus.ReferencesResolved st) (Some c)
                        (SubscriptionStatus.ChannelReady st) (SubscriptionStatus.Physical st).

Definition setChannelReady (c : Condition.t) (st : SubscriptionStatus.t) : SubscriptionStatus.t :=
  SubscriptionStatus.mk (SubscriptionStatus.ReferencesResolved st)
                        (SubscriptionStatus.AddedToChannel st) (Some c)
                        (SubscriptionStatus.Physical st).

Definition setPhysical (p : PhysicalSubscription.t) (st : SubscriptionStatus.t) : SubscriptionStatus.t :=
  SubscriptionStatus.mk (SubscriptionStatus.ReferencesResolved st)
                        (SubscriptionStatus.AddedToChannel st)
                        (SubscriptionStatus.ChannelReady st) p.

Definition condTrue : Condition.t := Condition.mk ConditionTrue "" "" [].

(** Modelled from the spec: the Mark* and IsAddedToChannel helpers of
    v1.SubscriptionStatus live in the messaging/v1 API package.  Following
    the spec's condition set, each helper writes one named condition with a
    three-valued status and the machine-readable reason it is given. *)
Definition MarkReferencesResolved : M unit :=
  modifyStatus (setReferencesResolved condTrue).

Definition MarkReferencesResolvedUnknown (reason format : string) (args : list Arg) : M unit :=
  modifyStatus (setReferencesResolved (Condition.mk ConditionUnknown reason format args)).

Definition MarkReferencesNotResolved (reason format : string) (args : list Arg) : M unit :=
  modifyStatus (setReferencesResolved (Condition.mk ConditionFalse reason format args)).

Definition MarkAddedToChannel : M unit :=
  modifyStatus (setAddedToChannel condTrue).

Definition MarkNotAddedToChannel (reason format : string) (args : list Arg) : M unit :=
  modifyStatus (setAddedToChannel (Condition.mk ConditionFalse reason format args)).

Definition MarkChannelReady : M unit :=
  modifyStatus (setChannelReady condTrue).

Definition MarkChannelUnknown (reason format : string) (args : list Arg) : M unit :=
  modifyStatus (setChannelReady (Condition.mk ConditionUnknown reason format args)).

Definition MarkChannelFailed (reason format : string) (args : list Arg) : M unit :=
  modifyStatus (setChannelReady (Condition.mk ConditionFalse reason format args)).

Definition IsAddedToChannel (st : SubscriptionStatus.t) : bool :=
  match SubscriptionStatus.AddedToChannel st with
  | Some c => match Condition.Status c with ConditionTrue => true | _ => false end
  | None => false
  end.

(** Assignments to the three fields of Status.PhysicalSubscription. *)
Definition setSubscriberURI (u : option URL) : M unit :=
  modifyStatus (fun st =>
    let p := SubscriptionStatus.Physical st in
    setPhysical (PhysicalSubscription.mk u (PhysicalSubscription.ReplyURI p)
                                         (PhysicalSubscription.DeadLetterSinkURI p)) st).

Definition setReplyURI (u : option URL) : M unit :=
  modifyStatus (fun st =>
    let p := SubscriptionStatus.Physical st in
    setPhysical (PhysicalSubscription.mk (PhysicalSubscription.SubscriberURI p) u
                                         (PhysicalSubscription.DeadLetterSinkURI p)) st).

Definition setDeadLetterSinkURI (u : option URL) : M unit :=
  modifyStatus (fun st =>
    let p := SubscriptionStatus.Physical st in
    setPhysical (PhysicalSubscription.mk (PhysicalSubscription.SubscriberURI p)
                                         (PhysicalSubscription.ReplyURI p) u) st).

(** ** The reconciler *)

Section Reconciler.

Variable env : Env.

(** Calls to the collaborators, logged. *)
Definition callResolveGroup (ref : KReference.t) : M (result KReference.t) :=
  record (CallResolveGroup ref) ;; ret (ResolveGroup env ref).

Definition callTrackInNamespaceKReference (ref : KReference.t) : M (option error) :=
  s <- getSub ;;
  record (CallTrackInNamespaceKReference ref) ;;
  ret (TrackInNamespaceKReference env s ref).

Definition callListerForKReference (ref : KReference.t) : M (result Lister) :=
  record (CallListerForKReference ref) ;; ret (ListerForKReference env ref).

Definition callListerGet (chLister : Lister) (ref : KReference.t) (namespace name : string)
  : M (result RuntimeObject) :=
  record (CallListerGet ref namespace name) ;; ret (chLister namespace name).

Definition callTrackReference (ref : TrackerReference.t) : M (option error) :=
  s <- getSub ;;
  record (CallTrackReference ref) ;;
  ret (TrackReference env ref s).

Definition callChannelsGet (namespace name : string) : M (result Channel.t) :=
  record (CallChannelsGet namespace name) ;; ret (ChannelsGet env namespace name).

Definition callURIFromDestinationV1 (destination : Destination.t) : M (result URL) :=
  s <- getSub ;;
  record (CallURIFromDestinationV1 destination) ;;
  ret (URIFromDestinationV1 env destination s).

Definition callResourceInterface (namespace : string) (gvk : GroupVersionKind.t)
  : M (result ResourceClient) :=
  record (CallResourceInterface namespace gvk) ;; ret (ResourceInterface env namespace gvk).

Definition callPatch (resourceClient : ResourceClient) (namespace : string)
           (gvk : GroupVersionKind.t) (name patch : string) : M (result unit) :=
  record (CallPatch namespace gvk name patch) ;; ret (resourceClient name patch).

(** *** Status aggregation *)

Definition checkChannelStatusForSubscription (channel : Channelable.t) : M (option error) :=
  s <- getSub ;;
  match getSubStatus s channel with
  | Err err =>
      MarkChannelUnknown subscriptionNotMarkedReadyByChannel
                         "Failed to get subscription status: %s" [ArgError err] ;;
      ret (Some (NewEvent EventTypeWarning subscriptionNotMarkedReadyByChannel
                          "Failed to get subscription status: %w" [ArgError err]))
  | Ok ss =>
      match SubscriberStatus.Ready ss with
      | ConditionTrue => MarkChannelReady
      | ConditionUnknown =>
          MarkChannelUnknown subscriptionNotMarkedReadyByChannel
                             "Subscription marked by Channel as Unknown" []
      | ConditionFalse =>
          MarkChannelFailed subscriptionNotMarkedReadyByChannel
                            "Subscription marked by Channel as False" []
      end ;;
      ret None
  end.

(** *** Channel sync *)

(** The working copy [after] that patchSubscription diffs against the
    Channel. *)
Definition desired (channel : Channelable.t) (s : Subscription.t) : Channelable.t :=
  if IsZero (Subscription.DeletionTimestamp s)
  then updateChannelAddSubscription channel s
  else updateChannelRemoveSubscription channel s.

Definition patchSubscription (namespace : string) (channel : Channelable.t)
  : M (bool * option error) :=
  s <- getSub ;;
  let after := desired channel s in
  match CreateMergePatch env channel after with
  | Err err => ret (false, Some err)
  | Ok patch =>
      (* Empty patch is {}, hence we check for that. *)
      if (String.length patch <=? 2)%nat then ret (false, None)
      else
        rc <- callResourceInterface namespace (Channelable.GVK channel) ;;
        match rc with
        | Err err => ret (false, Some err)
        | Ok resourceClient =>
            p <- callPatch resourceClient namespace (Channelable.GVK channel)
                           (Channelable.Name channel) patch ;;
            match p with
            | Err err => ret (false, Some err)
            | Ok _ => ret (true, None)
            end
        end
  end.

Definition syncPhysicalChannel (channel : Channelable.t) (isDeleted : bool)
  : M (bool * option error) :=
  s <- getSub ;;
  r <- patchSubscription (Subscription.Namespace s) channel ;;
  match r with
  | (patched, Some patchErr) =>
      if isDeleted && IsNotFound patchErr
      then ret (false, None)
      else ret (patched, Some patchErr)
  | (patched, None) => ret (patched, None)
  end.

Definition syncChannel (channel : Channelable.t) : M (option error) :=
  r <- syncPhysicalChannel channel false ;;
  match r with
  | (_, Some err) =>
      MarkNotAddedToChannel physicalChannelSyncFailed
                            "Failed to sync physical Channel: %v" [ArgError err] ;;
      ret (Some (NewEvent EventTypeWarning physicalChannelSyncFailed
                          "Failed to synchronize to channel %q: %w"
                          [ArgString (Channelable.Name channel); ArgError err]))
  | (true, None) =>
      s <- getSub ;;
      if IsZero (Subscription.DeletionTimestamp s)
      then
        MarkAddedToChannel ;;
        ret (Some (NewEvent EventTypeNormal "SubscriberSync"
                            "Subscription was synchronized to channel %q"
                            [ArgString (Channelable.Name channel)]))
      else
        ret (Some (NewEvent EventTypeNormal "SubscriberRemoved"
                            "Subscription was removed from channel %q"
                            [ArgString (Channelable.Name channel)]))
  | (false, None) =>
      s <- getSub ;;
      (if IsZero (Subscription.DeletionTimestamp s)
       then MarkAddedToChannel
       else ret tt) ;;
      ret None
  end.

(** *** Destination resolution *)

Definition deref (destination : option Destination.t) : Destination.t :=
  match destination with
  | Some d => d
  | None => Destination.empty
  end.

Definition changed (old : option URL) (new : URL) : bool :=
  match old with
  | None => true
  | Some u => negb (String.eqb u new)
  end.

Definition resolveSubscriber : M (option error) :=
  subscription <- getSub ;;
  let subscriber := Subscription.SpecSubscriber subscription in
  if negb (isNilOrEmptyDestination subscriber) then
    let subscriber := SetDefaults env (Subscription.Namespace subscription) (deref subscriber) in
    r <- match Destination.Ref subscriber with
         | Some ref =>
             if KReferenceGroupEnabled env then
               g <- callResolveGroup ref ;;
               match g with
               | Err err => ret (Err err)
               | Ok ref' => ret (Ok (Destination.mk (Some ref') (Destination.URI subscriber)))
               end
             else ret (Ok subscriber)
         | None => ret (Ok subscriber)
         end ;;
    match r with
    | Err err =>
        MarkReferencesNotResolved subscriberResolveFailed
                                  "Failed to resolve spec.subscriber.ref: %v" [ArgError err] ;;
        ret (Some (NewEvent EventTypeWarning subscriberResolveFailed
                            "Failed to resolve spec.subscriber.ref: %w" [ArgError err]))
    | Ok subscriber =>
        u <- callURIFromDestinationV1 subscriber ;;
        match u with
        | Err err =>
            MarkReferencesNotResolved subscriberResolveFailed
                                      "Failed to resolve spec.subscriber: %v" [ArgError err] ;;
            ret (Some (NewEvent EventTypeWarning subscriberResolveFailed
                                "Failed to resolve spec.subscriber: %w" [ArgError err]))
        | Ok subscriberURI =>
            (* If there is a change in resolved URI, log it. *)
            s <- getSub ;;
            (if changed (PhysicalSubscription.SubscriberURI
                           (SubscriptionStatus.Physical (Subscription.Status s)))
                        subscriberURI
             then setSubscriberURI (Some subscriberURI)
             else ret tt) ;;
            ret None
        end
    end
  else
    setSubscriberURI None ;;
    ret None.

Definition resolveReply : M (option error) :=
  subscription <- getSub ;;
  let reply := Subscription.SpecReply subscription in
  if negb (isNilOrEmptyDestination reply) then
    let reply := SetDefaults env (Subscription.Namespace subscription) (deref reply) in
    u <- callURIFromDestinationV1 reply ;;
    match u with
    | Err err =>
        MarkReferencesNotResolved replyResolveFailed
                                  "Failed to resolve spec.reply: %v" [ArgError err] ;;
        ret (Some (NewEvent EventTypeWarning replyResolveFailed
                            "Failed to resolve spec.reply: %w" [ArgError err]))
    | Ok replyURI =>
        s <- getSub ;;
        (if changed (PhysicalSubscription.ReplyURI
                       (SubscriptionStatus.Physical (Subscription.Status s)))
                    replyURI
         then setReplyURI (Some replyURI)
         else ret tt) ;;
        ret None
    end
  else
    setReplyURI None ;;
    ret None.

(** [spec.Delivery != nil && spec.Delivery.DeadLetterSink != nil], with the
    destination when the test holds. *)
Definition declaredDeadLetterSink (delivery : option DeliverySpec.t) : option Destination.t :=
  match delivery with
  | Some d => DeliverySpec.DeadLetterSink d
  | None => None
  end.

Definition resolveDeadLetterSink (channel : Channelable.t) : M (option error) :=
  subscription <- getSub ;;
  (* resolve the Subscription's dls first, fall back to the Channels's *)
  match declaredDeadLetterSink (Subscription.SpecDelivery subscription) with
  | Some deadLetterSink =>
      u <- callURIFromDestinationV1 deadLetterSink ;;
      match u with
      | Err err =>
          setDeadLetterSinkURI None ;;
          MarkReferencesNotResolved deadLetterSinkResolveFailed
                                    "Failed to resolve spec.delivery.deadLetterSink: %v"
                                    [ArgError err] ;;
          ret (Some (NewEvent EventTypeWarning deadLetterSinkResolveFailed
                              "Failed to resolve spec.delivery.deadLetterSink: %w"
                              [ArgError err]))
      | Ok deadLetterSinkURI =>
          setDeadLetterSinkURI (Some deadLetterSinkURI) ;;
          ret None
      end
  | None =>
      (* In case there is no DLS defined in the Subscription Spec, fallback to Channel's *)
      match declaredDeadLetterSink (Channelable.Delivery channel) with
      | Some _ =>
          match Channelable.StatusDeadLetterSinkURI channel with
          | Some uri =>
              setDeadLetterSinkURI (Some uri) ;;
              ret None
          | None =>
              setDeadLetterSinkURI None ;;
              MarkReferencesNotResolved deadLetterSinkResolveFailed
                                        "channel %s didn't set status.deadLetterSinkURI"
                                        [ArgString (Channelable.Name channel)] ;;
              ret (Some (NewEvent EventTypeWarning deadLetterSinkResolveFailed
                                  "channel %s didn't set status.deadLetterSinkURI"
                                  [ArgString (Channelable.Name channel)]))
          end
      | None =>
          (* There is no DLS defined in neither Subscription nor the Channel *)
          setDeadLetterSinkURI None ;;
          ret None
      end
  end.

Definition resolveSubscriptionURIs (channel : Channelable.t) : M (option error) :=
  MarkReferencesResolvedUnknown "Resolving" "Subscription resolution interrupted." [] ;;
  e1 <- resolveSubscriber ;;
  match e1 with
  | Some err => ret (Some err)
  | None =>
      e2 <- resolveReply ;;
      match e2 with
      | Some err => ret (Some err)
      | None =>
          e3 <- resolveDeadLetterSink channel ;;
          match e3 with
          | Some err => ret (Some err)
          | None =>
              MarkReferencesResolved ;;
              ret None
          end
      end
  end.

(** *** Channel location *)

Definition trackAndFetchChannel (ref : KReference.t) : M (result RuntimeObject) :=
  s <- getSub ;;
  (* Resolve the group *)
  g <- (if KReferenceGroupEnabled env then callResolveGroup ref else ret (Ok ref)) ;;
  match g with
  | Err err => ret (Err err)
  | Ok ref =>
      t <- callTrackInNamespaceKReference ref ;;
      match t with
      | Some err =>
          ret (Err (NewEvent EventTypeWarning "TrackerFailed"
                             "unable to track changes to spec.channel: %w" [ArgError err]))
      | None =>
          l <- callListerForKReference ref ;;
          match l with
          | Err err => ret (Err err)
          | Ok chLister =>
              o <- callListerGet chLister ref (Subscription.Namespace s) (KReference.Name ref) ;;
              match o with
              | Err err => ret (Err err)
              | Ok obj => ret (Ok obj)
              end
          end
      end
  end.

(** [v1ChannelGVK.Group == gvk.Group && v1ChannelGVK.Kind == gvk.Kind]. *)
Definition isV1Channel (gvk : GroupVersionKind.t) : bool :=
  String.eqb (GroupVersionKind.Group v1ChannelGVK) (GroupVersionKind.Group gvk) &&
  String.eqb (GroupVersionKind.Kind v1ChannelGVK) (GroupVersionKind.Kind gvk).

(** The type assertion [obj.( *eventingduckv1.Channelable)] and the copy. *)
Definition asChannelable (obj : RuntimeObject) : result Channelable.t :=
  match obj with
  | ChannelableObject ch => Ok ch
  | OtherObject gvk =>
      Err (Errorf "Failed to convert to Channelable Object: %+v" [ArgObject gvk])
  end.

Definition getChannel : M (result Channelable.t) :=
  s <- getSub ;;
  (* 1. Track the channel pointed by subscription. *)
  o <- trackAndFetchChannel (Subscription.SpecChannel s) ;;
  match o with
  | Err err => ret (Err err)
  | Ok obj =>
      let gvk := GetObjectKind obj in
      if isV1Channel gvk then
        t <- callTrackReference
               (TrackerReference.mk "messaging.knative.dev/v1" "Channel"
                                    (Subscription.Namespace s)
                                    (KReference.Name (Subscription.SpecChannel s))) ;;
        match t with
        | Some err => ret (Err err)
        | None =>
            c <- callChannelsGet (Subscription.Namespace s)
                                 (KReference.Name (Subscription.SpecChannel s)) ;;
            match c with
            | Err err => ret (Err err)
            | Ok channel =>
                match Channel.IsReady channel, Channel.StatusChannel channel with
                | true, Some backing =>
                    let statCh := KReference.mk (KReference.Kind backing)
                                                (Subscription.Namespace s)
                                                (KReference.Name backing)
                                                (KReference.APIVersion backing)
                                                "" in
                    o' <- trackAndFetchChannel statCh ;;
                    match o' with
                    | Err err => ret (Err err)
                    | Ok obj' => ret (asChannelable obj')
                    end
                | _, _ => ret (Err (Errorf "channel is not ready." []))
                end
            end
        end
      else ret (asChannelable obj)
  end.

(** *** The two entry points *)

Definition ReconcileKind : M (option error) :=
  (* Find the channel for this subscription. *)
  c <- getChannel ;;
  match c with
  | Err err =>
      MarkReferencesResolvedUnknown channelReferenceFailed
                                    "Failed to get Spec.Channel or backing channel: %s"
                                    [ArgError err] ;;
      ret (Some (NewEvent EventTypeWarning channelReferenceFailed
                          "Failed to get Spec.Channel or backing channel: %w"
                          [ArgError err]))
  | Ok channel =>
      (* Make sure all the URI's that are suppose to be in status are up to date. *)
      e1 <- resolveSubscriptionURIs channel ;;
      match e1 with
      | Some event => ret (Some event)
      | None =>
          (* Sync the resolved subscription into the channel. *)
          e2 <- syncChannel channel ;;
          match e2 with
          | Some event => ret (Some event)
          | None =>
              (* Check if the channel has the subscription in its status. *)
              e3 <- checkChannelStatusForSubscription channel ;;
              match e3 with
              | Some event => ret (Some event)
              | None => ret None
              end
          end
      end
  end.

Definition FinalizeKind : M (option error) :=
  c <- getChannel ;;
  match c with
  | Err err =>
      (* If the channel was deleted (i.e., error == notFound), just return nil. *)
      if IsNotFound err then ret None else ret (Some err)
  | Ok channel =>
      s <- getSub ;;
      if IsAddedToChannel (Subscription.Status s)
      then syncChannel channel
      else ret None
  end.

End Reconciler.

(** * Vocabulary of the statements *)

(** The uids of a subscriber list, in order. *)
Definition uids (l : list SubscriberSpec.t) : list UID := map SubscriberSpec.UID l.

(** The dead-letter field of an optional delivery policy. *)
Definition deadLetterSinkOf (delivery : option DeliverySpec.t) : option Destination.t :=
  match delivery with
  | Some d => DeliverySpec.DeadLetterSink d
  | None => None
  end.

(** The status and the physical subscription a run leaves behind. *)
Definition statusOf (m : Machine) : SubscriptionStatus.t := Subscription.Status (sub m).
Definition physicalOf (m : Machine) : PhysicalSubscription.t :=
  SubscriptionStatus.Physical (statusOf m).

(** The machine after one assignment to the status. *)
Definition withStatus (f : SubscriptionStatus.t -> SubscriptionStatus.t) (m : Machine) : Machine :=
  snd (modifyStatus f m).

Ltac run_monad :=
  unfold bind, ret, getSub, record, withStatus,
         MarkReferencesResolved, MarkReferencesResolvedUnknown, MarkReferencesNotResolved,
         MarkAddedToChannel, MarkNotAddedToChannel,
         MarkChannelReady, MarkChannelUnknown, MarkChannelFailed,
         setSubscriberURI, setReplyURI, setDeadLetterSinkURI, modifyStatus;
  simpl.

(** The Subscription's spec and metadata never change during a run; only its
    status does. *)
Definition sameSpec (a b : Subscription.t) : Prop :=
  Subscription.withStatus a (Subscription.Status b) = b.

(** A destination that is nil, or has neither a reference nor a URI. *)
Definition nilOrEmpty (destination : option Destination.t) : Prop :=
  destination = None \/
  exists d, destination = Some d /\ Destination.Ref d = None /\ Destination.URI d = None.

(** [spec.Delivery != nil && spec.Delivery.DeadLetterSink != nil] fails. *)
Definition declaresNoDeadLetterSink (delivery : option DeliverySpec.t) : Prop :=
  delivery = None \/ exists d, delivery = Some d /\ DeliverySpec.DeadLetterSink d = None.

(** [spec.Delivery != nil && spec.Delivery.DeadLetterSink != nil] holds, with
    that destination. *)
Definition declaresDeadLetterSink (delivery : option DeliverySpec.t) (dls : Destination.t) : Prop :=
  exists d, delivery = Some d /\ DeliverySpec.DeadLetterSink d = Some dls.

(** The event returned when the Channel declares a dead-letter destination
    and has not published its resolved URI. *)
Definition channelDLSNotSet (channel : Channelable.t) : error :=
  NewEvent EventTypeWarning deadLetterSinkResolveFailed
           "channel %s didn't set status.deadLetterSinkURI"
           [ArgString (Channelable.Name channel)].

(** The event of a failed resolution of the Subscription's own dead-letter
    destination. *)
Definition ownDLSFailed (err : error) : error :=
  NewEvent EventTypeWarning deadLetterSinkResolveFailed
           "Failed to resolve spec.delivery.deadLetterSink: %w" [ArgError err].

(** The start of resolveSubscriptionURIs: the references condition is set to
    Unknown before any destination is resolved. *)
Definition markResolving (m : Machine) : Machine :=
  snd (MarkReferencesResolvedUnknown "Resolving" "Subscription resolution interrupted." [] m).

(** The error of getSubStatus. *)
Definition notPresent (s : Subscription.t) (channel : Channelable.t) : error :=
  Errorf "subscription %q not present in channel %q subscriber's list"
         [ArgString (Subscription.Name s); ArgString (Channelable.Name channel)].

(** The Channel-readiness condition of the not-found case. *)
Definition channelUnknownNotPresent (s : Subscription.t) (channel : Channelable.t) : Condition.t :=
  Condition.mk ConditionUnknown subscriptionNotMarkedReadyByChannel
               "Failed to get subscription status: %s" [ArgError (notPresent s channel)].

(** The machine after the two client calls of a non-empty patch. *)
Definition afterPatch (namespace : string) (channel : Channelable.t) (patch : string)
           (m : Machine) : Machine :=
  mkMachine (sub m)
            ((calls m ++ [CallResourceInterface namespace (Channelable.GVK channel)])
               ++ [CallPatch namespace (Channelable.GVK channel) (Channelable.Name channel) patch]).

(** The event and the condition syncChannel produces for a sync error. *)
Definition syncFailed (channel : Channelable.t) (err : error) : error :=
  NewEvent EventTypeWarning physicalChannelSyncFailed
           "Failed to synchronize to channel %q: %w"
           [ArgString (Channelable.Name channel); ArgError err].

Definition notAddedToChannel (err : error) : Condition.t :=
  Condition.mk ConditionFalse physicalChannelSyncFailed
               "Failed to sync physical Channel: %v" [ArgError err].

(** The two events of a sync that wrote a patch. *)
Definition subscriberSync (channel : Channelable.t) : error :=
  NewEvent EventTypeNormal "SubscriberSync" "Subscription was synchronized to channel %q"
           [ArgString (Channelable.Name channel)].

Definition subscriberRemoved (channel : Channelable.t) : error :=
  NewEvent EventTypeNormal "SubscriberRemoved" "Subscription was removed from channel %q"
           [ArgString (Channelable.Name channel)].

(** The reference trackAndFetchChannel tracks and fetches: the given one,
    group-resolved when the feature is enabled. *)
Definition resolvedRef (env : Env) (ref : KReference.t) : result KReference.t :=
  if KReferenceGroupEnabled env then ResolveGroup env ref else Ok ref.

(** The event and the condition ReconcileKind produces when channel location
    fails. *)
Definition channelReferenceFailedEvent (err : error) : error :=
  NewEvent EventTypeWarning channelReferenceFailed
           "Failed to get Spec.Channel or backing channel: %w" [ArgError err].

Definition channelReferenceUnknown (err : error) : Condition.t :=
  Condition.mk ConditionUnknown channelReferenceFailed
               "Failed to get Spec.Channel or backing channel: %s" [ArgError err].

(** The error of getChannel for a channel-class object that is not ready or
    has no backing channel yet. *)
Definition channelNotReady : error := Errorf "channel is not ready." [].

(** The reference the second, explicit tracking registers. *)
Definition channelTrackerReference (s : Subscription.t) : TrackerReference.t :=
  TrackerReference.mk "messaging.knative.dev/v1" "Channel"
                      (Subscription.Namespace s)
                      (KReference.Name (Subscription.SpecChannel s)).

(** ** Concrete objects and collaborators *)

Module Scenario.

(** Structural equality of two Channelables, for a merge patch that is
    empty exactly between equal objects. *)
Definition Channelable_eq_dec (a b : Channelable.t) : {a = b} + {a <> b}.
Proof. repeat decide equality. Defined.

Definition mergePatch (before after : Channelable.t) : result string :=
  if Channelable_eq_dec before after
  then Ok "{}"
  else Ok "{spec:{subscribers:[...]}}".

Definition imcGVK : GroupVersionKind.t :=
  GroupVersionKind.mk "messaging.knative.dev" "v1" "InMemoryChannel".

Definition channelRef : KReference.t :=
  KReference.mk "InMemoryChannel" "default" "imc" "messaging.knative.dev/v1" "".

Definition noStatus : SubscriptionStatus.t :=
  SubscriptionStatus.mk None None None (PhysicalSubscription.mk None None None).

(** Subscription X at generation 5, no destinations, no delivery override. *)
Definition subX : Subscription.t :=
  Subscription.mk "sub" "default" "X" 5 None channelRef None None None noStatus.

(** A default that sets only retryCount. *)
Definition retryOnly : DeliverySpec.t :=
  DeliverySpec.mk None (Some 3%Z) None None None None.

Definition entry (uid : UID) : SubscriberSpec.t :=
  SubscriberSpec.mk uid 1 (Some "http://subscriber") None None.

Definition imc : Channelable.t :=
  Channelable.mk imcGVK "imc" [entry "A"; entry "X"] (Some retryOnly)
                 [SubscriberStatus.mk "X" 5 ConditionTrue ""] None.

Definition notFound : error := StatusError StatusReasonNotFound "channel imc not found".

(** Collaborators that all succeed: the lister serves [served], the typed
    lister serves [typed], every destination resolves to one URI and the
    patch result is [patchResult]. *)
Definition envWith (served : RuntimeObject) (typed : Channel.t)
           (resolved : result URL) (patchResult : result unit) : Env :=
  mkEnv false
        (fun ref => Ok ref)
        (fun _ _ => None)
        (fun _ => Ok (fun _ _ => Ok served))
        (fun _ _ => None)
        (fun _ _ => Ok typed)
        (fun _ d => d)
        (fun _ _ => resolved)
        mergePatch
        (fun _ _ => Ok (fun _ _ => patchResult)).

Definition readyChannel : Channel.t :=
  Channel.mk "imc" ConditionTrue (Some channelRef).

Definition env : Env :=
  envWith (ChannelableObject imc) readyChannel (Ok "http://dls") (Ok tt).

Definition start (s : Subscription.t) : Machine := mkMachine s [].

End Scenario.

Module Finalize.

(** A deletion-pending Subscription X that was added to its Channel. *)
Definition subGone : Subscription.t :=
  Subscription.mk "sub" "default" "X" 5 (Some 1700000000%Z) Scenario.channelRef
                  None None None
                  (SubscriptionStatus.mk None (Some condTrue) None
                                         (PhysicalSubscription.mk None None None)).

(** The Channel is found by the lister, but the patch answers not-found. *)
Definition envGone : Env :=
  Scenario.envWith (ChannelableObject Scenario.imc) Scenario.readyChannel
                   (Ok "http://dls") (Err Scenario.notFound).

Definition patchIssued : list Call :=
  [CallListerGet Scenario.channelRef "default" "imc";
   CallPatch "default" Scenario.imcGVK "imc" "{spec:{subscribers:[...]}}"].

End Finalize.

Module Factory.

(** A channel-class object served by the channelable lister, and the typed
    Channel behind it: not ready, although it already points at a backing
    channel. *)
Definition factory : Channelable.t :=
  Channelable.mk v1ChannelGVK "ch" [] None [] None.

Definition backing : KReference.t :=
  KReference.mk "InMemoryChannel" "default" "ch-backing" "messaging.knative.dev/v1" "".

Definition notReady : Channel.t := Channel.mk "ch" ConditionFalse (Some backing).

Definition factoryRef : KReference.t :=
  KReference.mk "Channel" "default" "ch" "messaging.knative.dev/v1" "".

Definition s : Subscription.t :=
  Subscription.mk "sub" "default" "X" 5 None factoryRef None None None Scenario.noStatus.

Definition env : Env :=
  Scenario.envWith (ChannelableObject factory) notReady (Ok "http://dls") (Ok tt).

End Factory.

(** ** Vocabulary of the further properties *)

(** A call to the destination resolver. *)
Definition isResolve (c : Call) : bool :=
  match c with CallURIFromDestinationV1 _ => true | _ => false end.

Definition count (p : Call -> bool) (cs : list Call) : nat := length (filter p cs).

(** [frame w f r c]: from any machine, the computation [c] leaves the
    Subscription's metadata and spec alone and appends to the call log, among
    other calls, at most [w] writes, [f] lister fetches and [r] resolver
    calls. *)
Definition frame (w f r : nat) {A : Type} (c : M A) : Prop :=
  forall m,
    sameSpec (sub m) (sub (snd (c m))) /\
    exists cs,
      calls (snd (c m)) = calls m ++ cs /\
      count isWrite cs <= w /\ count isFetch cs <= f /\ count isResolve cs <= r.


(** Every lookup in [cs] is made in the Subscription's namespace: a lister
    fetch asks for the name of the reference it was obtained for, a typed
    fetch and its registration name the Subscription's channel reference. *)
Definition inOwnNamespace (s : Subscription.t) (c : Call) : Prop :=
  match c with
  | CallListerGet ref namespace name =>
      namespace = Subscription.Namespace s /\ name = KReference.Name ref
  | CallChannelsGet namespace name =>
      namespace = Subscription.Namespace s /\
      name = KReference.Name (Subscription.SpecChannel s)
  | CallTrackReference ref =>
      TrackerReference.Namespace ref = Subscription.Namespace s /\
      TrackerReference.Name ref = KReference.Name (Subscription.SpecChannel s)
  | _ => True
  end.

(** The entries of a subscriber list that belong to other Subscriptions. *)
Definition otherEntries (uid : UID) (l : list SubscriberSpec.t) : list SubscriberSpec.t :=
  filter (fun v => negb (String.eqb (SubscriberSpec.UID v) uid)) l.

(** The five retry-related fields of a delivery policy. *)
Definition retryFields (d : DeliverySpec.t)
  : option string * option string * option Z * option string * option string :=
  (DeliverySpec.BackoffPolicy d, DeliverySpec.BackoffDelay d, DeliverySpec.Retry d,
   DeliverySpec.Timeout d, DeliverySpec.RetryAfterMax d).

(** The three dependent conditions of a machine's Subscription. *)
Definition referencesResolvedOf (m : Machine) : option Condition.t :=
  SubscriptionStatus.ReferencesResolved (statusOf m).
Definition addedToChannelOf (m : Machine) : option Condition.t :=
  SubscriptionStatus.AddedToChannel (statusOf m).
Definition channelReadyOf (m : Machine) : option Condition.t :=
  SubscriptionStatus.ChannelReady (statusOf m).

(** A condition that is not True and carries the given reason. *)
Definition failedWith (reason : string) (c : option Condition.t) : Prop :=
  exists cond,
    c = Some cond /\ Condition.Status cond <> ConditionTrue /\ Condition.Reason cond = reason.

(** [readsOnly c]: the computation [c] hands the Subscription back as it
    found it, status included. *)
Definition readsOnly {A : Type} (c : M A) : Prop :=
  forall m, sub (snd (c m)) = sub m.

(** The reasons resolveSubscriptionURIs can fail with. *)
Definition resolveReasons : list string :=
  [subscriberResolveFailed; replyResolveFailed; deadLetterSinkResolveFailed].


(** * Properties *)

(** ** The subscriber list: add, update and remove *)

Lemma toAdd_UID (sub : Subscription.t) (channel : Channelable.t) :
  SubscriberSpec.UID (toAdd sub channel) = Subscription.UID sub.
Proof. reflexivity. Qed.

(** A matching entry is overwritten in place: the entries before the first
    match and after it are untouched. *)
Lemma addLoop_found (uid : UID) (entry : SubscriberSpec.t) (l : list SubscriberSpec.t) :
  SubscriberSpec.UID entry = uid ->
  In uid (uids l) ->
  exists l1 v l2,
    l = l1 ++ v :: l2 /\ SubscriberSpec.UID v = uid /\ ~ In uid (uids l1) /\
    addLoop uid entry l = l1 ++ entry :: l2.
Proof.
  intros Hentry. induction l as [|v rest IH]; simpl; intros Hin.
  - contradiction.
  - destruct (String.eqb_spec (SubscriberSpec.UID v) uid) as [Heq|Hneq].
    + exists [], v, rest. repeat split; auto.
      simpl. f_equal. destruct entry; simpl in *. congruence.
    + destruct Hin as [Hin|Hin]; [contradiction|].
      destruct (IH Hin) as (l1 & w & l2 & Hl & Hw & Hl1 & Hadd).
      exists (v :: l1), w, l2. repeat split; simpl; auto.
      * now rewrite Hl.
      * intros [H|H]; auto.
      * now rewrite Hadd.
Qed.

Lemma addLoop_absent (uid : UID) (entry : SubscriberSpec.t) (l : list SubscriberSpec.t) :
  ~ In uid (uids l) -> addLoop uid entry l = l ++ [entry].
Proof.
  induction l as [|v rest IH]; simpl; intros Hnin; [reflexivity|].
  destruct (String.eqb_spec (SubscriberSpec.UID v) uid) as [Heq|Hneq].
  - exfalso. apply Hnin. now left.
  - rewrite IH; auto.
Qed.

Lemma removeLoop_found (uid : UID) (l : list SubscriberSpec.t) :
  In uid (uids l) ->
  exists l1 v l2,
    l = l1 ++ v :: l2 /\ SubscriberSpec.UID v = uid /\ ~ In uid (uids l1) /\
    removeLoop uid l = l1 ++ l2.
Proof.
  induction l as [|v rest IH]; simpl; intros Hin.
  - contradiction.
  - destruct (String.eqb_spec (SubscriberSpec.UID v) uid) as [Heq|Hneq].
    + exists [], v, rest. repeat split; auto.
    + destruct Hin as [Hin|Hin]; [contradiction|].
      destruct (IH Hin) as (l1 & w & l2 & Hl & Hw & Hl1 & Hrm).
      exists (v :: l1), w, l2. repeat split; simpl; auto.
      * now rewrite Hl.
      * intros [H|H]; auto.
      * now rewrite Hrm.
Qed.

Lemma removeLoop_absent (uid : UID) (l : list SubscriberSpec.t) :
  ~ In uid (uids l) -> removeLoop uid l = l.
Proof.
  induction l as [|v rest IH]; simpl; intros Hnin; [reflexivity|].
  destruct (String.eqb_spec (SubscriberSpec.UID v) uid) as [Heq|Hneq].
  - exfalso. apply Hnin. now left.
  - rewrite IH; auto.
Qed.

Lemma uids_app (l1 l2 : list SubscriberSpec.t) : uids (l1 ++ l2) = uids l1 ++ uids l2.
Proof. apply map_app. Qed.

Lemma addLoop_NoDup (uid : UID) (entry : SubscriberSpec.t) (l : list SubscriberSpec.t) :
  SubscriberSpec.UID entry = uid ->
  NoDup (uids l) -> NoDup (uids (addLoop uid entry l)).
Proof.
  intros Hentry Hnd.
  destruct (in_dec string_dec uid (uids l)) as [Hin|Hnin].
  - destruct (addLoop_found uid entry l Hentry Hin) as (l1 & v & l2 & Hl & Hv & _ & Hadd).
    rewrite Hadd. rewrite Hl in Hnd.
    rewrite uids_app in *. simpl in *. now rewrite Hentry, <- Hv.
  - rewrite (addLoop_absent _ _ _ Hnin), uids_app. simpl.
    rewrite Hentry.
    apply (NoDup_Add (Add_app uid (uids l) [])).
    rewrite app_nil_r. split; assumption.
Qed.

Lemma removeLoop_NoDup (uid : UID) (l : list SubscriberSpec.t) :
  NoDup (uids l) -> NoDup (uids (removeLoop uid l)).
Proof.
  intros Hnd.
  destruct (in_dec string_dec uid (uids l)) as [Hin|Hnin].
  - destruct (removeLoop_found uid l Hin) as (l1 & v & l2 & Hl & _ & _ & Hrm).
    rewrite Hrm. rewrite Hl in Hnd. rewrite uids_app in *. simpl in Hnd.
    now apply NoDup_remove_1 in Hnd.
  - now rewrite removeLoop_absent.
Qed.

Lemma removeLoop_not_In (uid : UID) (l : list SubscriberSpec.t) :
  NoDup (uids l) -> ~ In uid (uids (removeLoop uid l)).
Proof.
  intros Hnd.
  destruct (in_dec string_dec uid (uids l)) as [Hin|Hnin].
  - destruct (removeLoop_found uid l Hin) as (l1 & v & l2 & Hl & Hv & _ & Hrm).
    rewrite Hrm. rewrite Hl in Hnd. rewrite uids_app in *. simpl in Hnd.
    apply NoDup_remove_2 in Hnd. now rewrite Hv in Hnd.
  - now rewrite removeLoop_absent.
Qed.

(** After an add or update the Subscription's entry is in the list. *)
Lemma addLoop_In (uid : UID) (entry : SubscriberSpec.t) (l : list SubscriberSpec.t) :
  SubscriberSpec.UID entry = uid -> In entry (addLoop uid entry l).
Proof.
  intros Hentry.
  destruct (in_dec string_dec uid (uids l)) as [Hin|Hnin].
  - destruct (addLoop_found uid entry l Hentry Hin) as (l1 & v & l2 & _ & _ & _ & Hadd).
    rewrite Hadd. apply in_elt.
  - rewrite addLoop_absent by assumption. apply in_or_app. right. now left.
Qed.

(** Adding twice is adding once. *)
Lemma addLoop_idempotent (uid : UID) (entry : SubscriberSpec.t) (l : list SubscriberSpec.t) :
  SubscriberSpec.UID entry = uid ->
  addLoop uid entry (addLoop uid entry l) = addLoop uid entry l.
Proof.
  intros Hentry. induction l as [|v rest IH]; simpl.
  - rewrite Hentry, String.eqb_refl. f_equal. destruct entry; simpl in *; congruence.
  - destruct (String.eqb_spec (SubscriberSpec.UID v) uid) as [Heq|Hneq]; simpl.
    + now rewrite Heq, String.eqb_refl.
    + apply String.eqb_neq in Hneq. now rewrite Hneq, IH.
Qed.

Lemma deliverySpec_withSubscribers (sub : Subscription.t) (channel : Channelable.t)
      (l : list SubscriberSpec.t) :
  deliverySpec sub (Channelable.withSubscribers channel l) = deliverySpec sub channel.
Proof. reflexivity. Qed.

Lemma updateChannelAddSubscription_idempotent (channel : Channelable.t) (sub : Subscription.t) :
  updateChannelAddSubscription (updateChannelAddSubscription channel sub) sub
  = updateChannelAddSubscription channel sub.
Proof.
  unfold updateChannelAddSubscription, Channelable.withSubscribers, toAdd. simpl.
  f_equal. apply addLoop_idempotent. reflexivity.
Qed.

Lemma updateChannelRemoveSubscription_idempotent (channel : Channelable.t) (sub : Subscription.t) :
  NoDup (uids (Channelable.Subscribers channel)) ->
  updateChannelRemoveSubscription (updateChannelRemoveSubscription channel sub) sub
  = updateChannelRemoveSubscription channel sub.
Proof.
  intros Hnd.
  unfold updateChannelRemoveSubscription, Channelable.withSubscribers. simpl.
  f_equal. apply removeLoop_absent. now apply removeLoop_not_In.
Qed.

(** C9. On a subscriber list with at most one entry per uid, both sync
    operations keep the uids unique.  Add/update overwrites the entry with
    the Subscription's UID in place, or appends exactly one entry when there
    is none; removal cuts out the entry with the Subscription's UID, and
    leaves the list as it is when there is none; after removal the UID is
    absent. *)
Theorem sync_preserves_uid_uniqueness (channel : Channelable.t) (sub : Subscription.t) :
  let uid := Subscription.UID sub in
  let subs := Channelable.Subscribers channel in
  let added := Channelable.Subscribers (updateChannelAddSubscription channel sub) in
  let removed := Channelable.Subscribers (updateChannelRemoveSubscription channel sub) in
  NoDup (uids subs) ->
  NoDup (uids added) /\
  NoDup (uids removed) /\
  (In uid (uids subs) ->
   exists l1 v l2,
     subs = l1 ++ v :: l2 /\ SubscriberSpec.UID v = uid /\
     added = l1 ++ toAdd sub channel :: l2 /\
     removed = l1 ++ l2) /\
  (~ In uid (uids subs) ->
   added = subs ++ [toAdd sub channel] /\ removed = subs) /\
  In (toAdd sub channel) added /\
  ~ In uid (uids removed).
Proof.
  intros uid subs added removed Hnd.
  subst added removed. simpl. fold subs.
  repeat split.
  - apply addLoop_NoDup; [reflexivity | assumption].
  - apply removeLoop_NoDup; assumption.
  - intros Hin.
    destruct (addLoop_found uid (toAdd sub channel) subs eq_refl Hin)
      as (l1 & v & l2 & Hl & Hv & Hl1 & Hadd).
    exists l1, v, l2. repeat split; auto.
    rewrite Hl. clear - Hv Hl1.
    induction l1 as [|w l1 IH]; simpl.
    + apply String.eqb_eq in Hv. fold uid. now rewrite Hv.
    + destruct (String.eqb_spec (SubscriberSpec.UID w) (Subscription.UID sub)) as [Heq|Hneq].
      * exfalso. apply Hl1. left. exact Heq.
      * f_equal. apply IH. intros H. apply Hl1. now right.
  - apply addLoop_absent; assumption.
  - apply removeLoop_absent; assumption.
  - apply addLoop_In. reflexivity.
  - apply removeLoop_not_In; assumption.
Qed.

(** ** Delivery policy merge *)

Lemma isSome_true {A : Type} (o : option A) : isSome o = true <-> o <> None.
Proof. destruct o; simpl; split; congruence. Qed.

Lemma anyRetryField_true (d : DeliverySpec.t) :
  anyRetryField d = true <->
  (DeliverySpec.BackoffPolicy d <> None \/ DeliverySpec.BackoffDelay d <> None \/
   DeliverySpec.Retry d <> None \/ DeliverySpec.Timeout d <> None \/
   DeliverySpec.RetryAfterMax d <> None).
Proof.
  unfold anyRetryField. rewrite !orb_true_iff, !isSome_true. tauto.
Qed.

(** The dead-letter field of whatever deliverySpec returns is the
    Subscription's resolved dead-letter sink, as a URI-only destination. *)
Lemma deliverySpec_deadLetterSink (sub : Subscription.t) (channel : Channelable.t) :
  deadLetterSinkOf (deliverySpec sub channel)
  = option_map (fun uri => Destination.mk None (Some uri)) (PhysicalDLS sub).
Proof.
  unfold deliverySpec, deadLetterOnly.
  destruct (Subscription.SpecDelivery sub) as [sd|], (Channelable.Delivery channel) as [chd|];
    destruct (PhysicalDLS sub); simpl;
    try destruct (anyRetryField sd); try destruct (anyRetryField chd); reflexivity.
Qed.

(** C2. With no delivery override on the Subscription and a Channel default
    that sets at least one of the five retry fields, the policy computed for
    the SubscriberEntry is present and carries all five retry fields of the
    Channel default, set or not; that policy is the one on the entry written
    into the subscriber list. *)
Theorem deliverySpec_channel_default_all_five
        (sub : Subscription.t) (channel : Channelable.t) (chd : DeliverySpec.t) :
  Subscription.SpecDelivery sub = None ->
  Channelable.Delivery channel = Some chd ->
  (DeliverySpec.BackoffPolicy chd <> None \/ DeliverySpec.BackoffDelay chd <> None \/
   DeliverySpec.Retry chd <> None \/ DeliverySpec.Timeout chd <> None \/
   DeliverySpec.RetryAfterMax chd <> None) ->
  exists d,
    deliverySpec sub channel = Some d /\
    DeliverySpec.BackoffPolicy d = DeliverySpec.BackoffPolicy chd /\
    DeliverySpec.BackoffDelay d = DeliverySpec.BackoffDelay chd /\
    DeliverySpec.Retry d = DeliverySpec.Retry chd /\
    DeliverySpec.Timeout d = DeliverySpec.Timeout chd /\
    DeliverySpec.RetryAfterMax d = DeliverySpec.RetryAfterMax chd /\
    SubscriberSpec.Delivery (toAdd sub channel) = Some d /\
    In (toAdd sub channel)
       (Channelable.Subscribers (updateChannelAddSubscription channel sub)).
Proof.
  intros Hsub Hch Hany. apply anyRetryField_true in Hany.
  assert (Hd : deliverySpec sub channel
               = Some (copyRetryFields (orZero (deadLetterOnly sub)) chd)).
  { unfold deliverySpec. now rewrite Hsub, Hch, Hany. }
  eexists. split; [exact Hd|].
  repeat split; simpl; auto.
  apply addLoop_In. reflexivity.
Qed.

(** ** Status aggregation: the lookup *)

(** getSubStatus returns the first status entry that matches both the UID
    and the generation. *)
Lemma getSubStatusLoop_Some (sub : Subscription.t) (l : list SubscriberStatus.t)
      (ss : SubscriberStatus.t) :
  getSubStatusLoop sub l = Some ss <->
  exists l1 l2,
    l = l1 ++ ss :: l2 /\ statusMatches sub ss = true /\
    forall s, In s l1 -> statusMatches sub s = false.
Proof.
  induction l as [|s rest IH]; simpl.
  - split; [discriminate|]. intros (l1 & l2 & H & _). now destruct l1.
  - destruct (statusMatches sub s) eqn:Hm.
    + split.
      * intros H. injection H as <-. exists [], rest. destruct s; simpl in *.
        repeat split; auto. intros ? [].
      * intros (l1 & l2 & Hl & Hss & Hl1). destruct l1 as [|w l1]; simpl in Hl.
        -- injection Hl as -> _. now destruct ss.
        -- injection Hl as -> _. rewrite (Hl1 w) in Hm by now left. discriminate.
    + rewrite IH. split.
      * intros (l1 & l2 & Hl & Hss & Hl1). exists (s :: l1), l2. subst rest.
        repeat split; auto. intros x [<-|Hx]; auto.
      * intros (l1 & l2 & Hl & Hss & Hl1). destruct l1 as [|w l1]; simpl in Hl.
        -- injection Hl as -> _. congruence.
        -- injection Hl as -> ->. exists l1, l2. repeat split; auto.
           intros x Hx. apply Hl1. now right.
Qed.

Lemma getSubStatusLoop_None (sub : Subscription.t) (l : list SubscriberStatus.t) :
  getSubStatusLoop sub l = None <-> forall s, In s l -> statusMatches sub s = false.
Proof.
  induction l as [|s rest IH]; simpl.
  - split; auto. intros _ ? [].
  - destruct (statusMatches sub s) eqn:Hm.
    + split; [discriminate|]. intros H. rewrite (H s) in Hm by now left. discriminate.
    + rewrite IH. split.
      * intros H x [<-|Hx]; auto.
      * intros H x Hx. apply H. now right.
Qed.

Lemma statusMatches_true (sub : Subscription.t) (s : SubscriberStatus.t) :
  statusMatches sub s = true <->
  SubscriberStatus.UID s = Subscription.UID sub /\
  SubscriberStatus.ObservedGeneration s = Subscription.Generation sub.
Proof.
  unfold statusMatches. now rewrite andb_true_iff, String.eqb_eq, Z.eqb_eq.
Qed.

(** ** Subscriber and reply resolution *)

Lemma isNilOrEmptyDestination_true (destination : option Destination.t) :
  isNilOrEmptyDestination destination = true <-> nilOrEmpty destination.
Proof.
  unfold nilOrEmpty, isNilOrEmptyDestination. destruct destination as [[r u]|]; simpl.
  - destruct r, u; simpl; split; try discriminate;
      try (intros [H|(d & H & Hr & Hu)]; [discriminate|];
           injection H as <-; simpl in *; discriminate).
    + intros _. right. eexists. repeat split.
    + reflexivity.
  - split; auto.
Qed.

(** C8. When the subscriber destination (respectively the reply destination)
    is nil or has neither a reference nor a URI, resolution sets the
    corresponding physicalSubscription URI to nil, returns no error, calls no
    collaborator and changes nothing else. *)
Theorem resolve_nil_or_empty_clears_uri (env : Env) (m : Machine) :
  (nilOrEmpty (Subscription.SpecSubscriber (sub m)) ->
   let '(event, m') := resolveSubscriber env m in
   event = None /\
   PhysicalSubscription.SubscriberURI (physicalOf m') = None /\
   m' = snd (setSubscriberURI None m) /\
   calls m' = calls m) /\
  (nilOrEmpty (Subscription.SpecReply (sub m)) ->
   let '(event, m') := resolveReply env m in
   event = None /\
   PhysicalSubscription.ReplyURI (physicalOf m') = None /\
   m' = snd (setReplyURI None m) /\
   calls m' = calls m).
Proof.
  split; intros H; apply isNilOrEmptyDestination_true in H.
  - unfold resolveSubscriber. run_monad. rewrite H. simpl. auto.
  - unfold resolveReply. run_monad. rewrite H. simpl. auto.
Qed.

(** ** Dead-letter sink resolution *)

Lemma declaredDeadLetterSink_None (delivery : option DeliverySpec.t) :
  declaresNoDeadLetterSink delivery <-> declaredDeadLetterSink delivery = None.
Proof.
  unfold declaresNoDeadLetterSink, declaredDeadLetterSink. destruct delivery as [d|].
  - split.
    + intros [H|(d' & H & Hd)]; [discriminate|]. now injection H as <-.
    + intros H. right. now exists d.
  - split; auto.
Qed.

Lemma declaredDeadLetterSink_Some (delivery : option DeliverySpec.t) (dls : Destination.t) :
  declaresDeadLetterSink delivery dls <-> declaredDeadLetterSink delivery = Some dls.
Proof.
  unfold declaresDeadLetterSink, declaredDeadLetterSink. destruct delivery as [d|].
  - split.
    + intros (d' & H & Hd). now injection H as <-.
    + intros H. now exists d.
  - split; [intros (d' & H & _)|]; discriminate.
Qed.

(** C3. For a Subscription that declares no dead-letter sink of its own:
    when the Channel declares a default dead-letter destination and its
    status carries the resolved URI U, resolution succeeds, writes U into the
    Subscription's physicalSubscription, and the delivery policy of the
    SubscriberEntry then has a URI-only dead-letter destination U; when the
    Channel declares one but its status URI is absent, resolution fails with
    DeadLetterSinkResolveFailed (status URI cleared, references marked not
    resolved); when the Channel declares none either, the status URI is
    cleared and resolution succeeds. *)
Theorem resolveDeadLetterSink_channel_fallback
        (env : Env) (channel : Channelable.t) (m : Machine) :
  declaresNoDeadLetterSink (Subscription.SpecDelivery (sub m)) ->
  let '(event, m') := resolveDeadLetterSink env channel m in
  (forall dls U,
      declaresDeadLetterSink (Channelable.Delivery channel) dls ->
      Channelable.StatusDeadLetterSinkURI channel = Some U ->
      event = None /\
      m' = snd (setDeadLetterSinkURI (Some U) m) /\
      PhysicalSubscription.DeadLetterSinkURI (physicalOf m') = Some U /\
      deadLetterSinkOf (deliverySpec (sub m') channel) = Some (Destination.mk None (Some U)) /\
      deadLetterSinkOf (SubscriberSpec.Delivery (toAdd (sub m') channel))
      = Some (Destination.mk None (Some U)) /\
      In (toAdd (sub m') channel)
         (Channelable.Subscribers (updateChannelAddSubscription channel (sub m')))) /\
  (forall dls,
      declaresDeadLetterSink (Channelable.Delivery channel) dls ->
      Channelable.StatusDeadLetterSinkURI channel = None ->
      event = Some (channelDLSNotSet channel) /\
      PhysicalSubscription.DeadLetterSinkURI (physicalOf m') = None /\
      SubscriptionStatus.ReferencesResolved (statusOf m')
      = Some (Condition.mk ConditionFalse deadLetterSinkResolveFailed
                           "channel %s didn't set status.deadLetterSinkURI"
                           [ArgString (Channelable.Name channel)])) /\
  (declaresNoDeadLetterSink (Channelable.Delivery channel) ->
   event = None /\
   m' = snd (setDeadLetterSinkURI None m) /\
   PhysicalSubscription.DeadLetterSinkURI (physicalOf m') = None) /\
  calls m' = calls m.
Proof.
  intros Hsub. apply declaredDeadLetterSink_None in Hsub.
  unfold resolveDeadLetterSink. run_monad. rewrite Hsub.
  destruct (declaredDeadLetterSink (Channelable.Delivery channel)) as [chdls|] eqn:Hch;
    [destruct (Channelable.StatusDeadLetterSinkURI channel) as [uri|] eqn:Huri|];
    simpl; (split; [|split; [|split]]); try reflexivity;
    try (intros dls U Hd HU); try (intros dls Hd HU); try (intros Hd);
    try discriminate;
    try (apply declaredDeadLetterSink_Some in Hd; congruence);
    try (apply declaredDeadLetterSink_None in Hd; congruence);
    try (repeat split; reflexivity).
  injection HU as <-. repeat split.
  - rewrite deliverySpec_deadLetterSink. reflexivity.
  - change (SubscriberSpec.Delivery (toAdd ?s ?c)) with (deliverySpec s c).
    rewrite deliverySpec_deadLetterSink. reflexivity.
  - apply addLoop_In. reflexivity.
Qed.

(** A failure of the dead-letter step is the outcome of the whole pass:
    nothing is synced and no status is read back. *)
Lemma ReconcileKind_deadLetterSink_failure
      (env : Env) (channel : Channelable.t) (m0 m1 m2 m3 m4 : Machine) (event : error) :
  getChannel env m0 = (Ok channel, m1) ->
  resolveSubscriber env (markResolving m1) = (None, m2) ->
  resolveReply env m2 = (None, m3) ->
  resolveDeadLetterSink env channel m3 = (Some event, m4) ->
  ReconcileKind env m0 = (Some event, m4).
Proof.
  intros Hch Hs Hr Hd.
  unfold ReconcileKind, resolveSubscriptionURIs, bind at 1. rewrite Hch.
  unfold bind at 1. unfold bind at 1. unfold bind at 1.
  unfold markResolving in Hs.
  destruct (MarkReferencesResolvedUnknown _ _ _ m1) as [u m1'] eqn:Hm. simpl in Hs.
  unfold bind at 1. rewrite Hs.
  unfold bind at 1. rewrite Hr.
  unfold bind at 1. rewrite Hd. reflexivity.
Qed.

(** C4. For a Subscription that declares its own dead-letter destination:
    when the resolver fails on it, resolution returns a
    DeadLetterSinkResolveFailed warning, clears the status URI and marks the
    references not resolved, and that event is the outcome of the reconcile
    pass; when the resolver succeeds, the resolved URI is written to the
    Subscription's status and resolution returns no error.  In both cases the
    Channel is not consulted: the outcome is the same for every Channel. *)
Theorem resolveDeadLetterSink_own_destination
        (env : Env) (channel : Channelable.t) (m : Machine) (dls : Destination.t) :
  declaresDeadLetterSink (Subscription.SpecDelivery (sub m)) dls ->
  let '(event, m') := resolveDeadLetterSink env channel m in
  (forall err,
      URIFromDestinationV1 env dls (sub m) = Err err ->
      event = Some (ownDLSFailed err) /\
      PhysicalSubscription.DeadLetterSinkURI (physicalOf m') = None /\
      SubscriptionStatus.ReferencesResolved (statusOf m')
      = Some (Condition.mk ConditionFalse deadLetterSinkResolveFailed
                           "Failed to resolve spec.delivery.deadLetterSink: %v"
                           [ArgError err]) /\
      forall m0 m1 m2,
        getChannel env m0 = (Ok channel, m1) ->
        resolveSubscriber env (markResolving m1) = (None, m2) ->
        resolveReply env m2 = (None, m) ->
        ReconcileKind env m0 = (Some (ownDLSFailed err), m')) /\
  (forall uri,
      URIFromDestinationV1 env dls (sub m) = Ok uri ->
      event = None /\
      PhysicalSubscription.DeadLetterSinkURI (physicalOf m') = Some uri /\
      m' = snd (setDeadLetterSinkURI (Some uri) (snd (record (CallURIFromDestinationV1 dls) m)))) /\
  (forall channel', resolveDeadLetterSink env channel' m = (event, m')) /\
  calls m' = calls m ++ [CallURIFromDestinationV1 dls].
Proof.
  intros Hsub. apply declaredDeadLetterSink_Some in Hsub.
  destruct (resolveDeadLetterSink env channel m) as [event m'] eqn:Hrun.
  assert (Hany : forall channel', resolveDeadLetterSink env channel' m = (event, m')).
  { intros channel'. rewrite <- Hrun.
    unfold resolveDeadLetterSink. run_monad. now rewrite Hsub. }
  unfold resolveDeadLetterSink, callURIFromDestinationV1 in Hrun. run_monad.
  revert Hrun. run_monad. rewrite Hsub.
  destruct (URIFromDestinationV1 env dls (sub m)) as [uri|e] eqn:Hres; simpl;
    intros Hrun; injection Hrun as <- <-; simpl;
    (split; [|split; [|split]]); try reflexivity; try exact Hany;
    try (intros x Hx; try discriminate; injection Hx as <-; repeat split).
  intros m0 m1 m2 Hch Hs Hr.
  apply (ReconcileKind_deadLetterSink_failure env channel m0 m1 m2 m _ _ Hch Hs Hr).
  unfold resolveDeadLetterSink, callURIFromDestinationV1. run_monad.
  now rewrite Hsub, Hres.
Qed.

(** ** Status aggregation: the fold *)

Lemma checkChannelStatus_found (channel : Channelable.t) (m : Machine)
      (ss : SubscriberStatus.t) :
  getSubStatusLoop (sub m) (Channelable.StatusSubscribers channel) = Some ss ->
  SubscriberStatus.Ready ss = ConditionTrue ->
  checkChannelStatusForSubscription channel m
  = (None, withStatus (setChannelReady condTrue) m).
Proof.
  intros Hfind Hready.
  unfold checkChannelStatusForSubscription, getSubStatus. run_monad.
  now rewrite Hfind, Hready.
Qed.

Lemma checkChannelStatus_not_found (channel : Channelable.t) (m : Machine) :
  getSubStatusLoop (sub m) (Channelable.StatusSubscribers channel) = None ->
  checkChannelStatusForSubscription channel m
  = (Some (NewEvent EventTypeWarning subscriptionNotMarkedReadyByChannel
                    "Failed to get subscription status: %w"
                    [ArgError (notPresent (sub m) channel)]),
     withStatus (setChannelReady (channelUnknownNotPresent (sub m) channel)) m).
Proof.
  intros Hfind.
  unfold checkChannelStatusForSubscription, getSubStatus. run_monad.
  now rewrite Hfind.
Qed.

(** C6. Status aggregation looks up the first per-subscriber status entry
    whose uid is the Subscription's UID and whose observedGeneration is its
    current generation.  When that entry has ready=True the Subscription's
    channel-readiness condition becomes True and no error is returned; this
    covers every status list that holds at most one entry per (uid,
    generation) and has such an entry with ready=True.  When no entry matches
    both (for instance only an entry of a stale generation exists), the
    lookup fails, the condition becomes Unknown with reason
    SubscriptionNotMarkedReadyByChannel and that warning is returned. *)
Theorem checkChannelStatus_fold (channel : Channelable.t) (m : Machine) :
  let s := sub m in
  let statuses := Channelable.StatusSubscribers channel in
  let matches (st : SubscriberStatus.t) :=
    SubscriberStatus.UID st = Subscription.UID s /\
    SubscriberStatus.ObservedGeneration st = Subscription.Generation s in
  let '(event, m') := checkChannelStatusForSubscription channel m in
  (forall l1 st l2,
      statuses = l1 ++ st :: l2 -> matches st ->
      (forall x, In x l1 -> ~ matches x) ->
      SubscriberStatus.Ready st = ConditionTrue ->
      event = None /\
      SubscriptionStatus.ChannelReady (statusOf m') = Some condTrue) /\
  (forall st,
      (forall x y, In x statuses -> In y statuses -> matches x -> matches y -> x = y) ->
      In st statuses -> matches st ->
      SubscriberStatus.Ready st = ConditionTrue ->
      event = None /\
      SubscriptionStatus.ChannelReady (statusOf m') = Some condTrue) /\
  ((forall x, In x statuses -> ~ matches x) ->
   event = Some (NewEvent EventTypeWarning subscriptionNotMarkedReadyByChannel
                          "Failed to get subscription status: %w"
                          [ArgError (notPresent s channel)]) /\
   SubscriptionStatus.ChannelReady (statusOf m')
   = Some (channelUnknownNotPresent s channel)) /\
  calls m' = calls m /\
  sameSpec (sub m) (sub m').
Proof.
  intros s statuses matches.
  assert (Hfirst : forall l1 st l2,
             statuses = l1 ++ st :: l2 -> matches st ->
             (forall x, In x l1 -> ~ matches x) ->
             getSubStatusLoop s statuses = Some st).
  { intros l1 st l2 Hl Hst Hl1. apply getSubStatusLoop_Some.
    exists l1, l2. repeat split; auto.
    - now apply statusMatches_true.
    - intros x Hx. destruct (statusMatches s x) eqn:Hm; auto.
      apply statusMatches_true in Hm. now apply Hl1 in Hm. }
  destruct (checkChannelStatusForSubscription channel m) as [event m'] eqn:Hrun.
  split; [|split; [|split; [|split]]].
  - intros l1 st l2 Hl Hst Hl1 Hready.
    rewrite (checkChannelStatus_found channel m st (Hfirst _ _ _ Hl Hst Hl1) Hready) in Hrun.
    injection Hrun as <- <-. split; reflexivity.
  - intros st Hkey Hin Hst Hready.
    destruct (getSubStatusLoop s statuses) as [st'|] eqn:Hfind.
    + pose proof Hfind as Hdec. apply getSubStatusLoop_Some in Hdec.
      destruct Hdec as (l1 & l2 & Hl & Hm & _). apply statusMatches_true in Hm.
      assert (st' = st).
      { apply Hkey; auto. rewrite Hl. apply in_elt. }
      subst st'.
      rewrite (checkChannelStatus_found channel m st Hfind Hready) in Hrun.
      injection Hrun as <- <-. split; reflexivity.
    + exfalso. rewrite getSubStatusLoop_None in Hfind.
      specialize (Hfind st Hin). apply statusMatches_true in Hst. congruence.
  - intros Hnone.
    assert (Hfind : getSubStatusLoop s statuses = None).
    { apply getSubStatusLoop_None. intros x Hx.
      destruct (statusMatches s x) eqn:Hm; auto.
      apply statusMatches_true in Hm. now apply Hnone in Hm. }
    rewrite (checkChannelStatus_not_found channel m Hfind) in Hrun.
    injection Hrun as <- <-. split; reflexivity.
  - revert Hrun. unfold checkChannelStatusForSubscription. run_monad.
    destruct (getSubStatus (sub m) channel) as [ss|e];
      [destruct (SubscriberStatus.Ready ss)|]; intros Hrun; injection Hrun as <- <-;
      reflexivity.
  - revert Hrun. unfold checkChannelStatusForSubscription. run_monad.
    destruct (getSubStatus (sub m) channel) as [ss|e];
      [destruct (SubscriberStatus.Ready ss)|]; intros Hrun; injection Hrun as <- <-;
      unfold sameSpec; destruct (sub m); reflexivity.
Qed.

(** ** Channel sync: patching *)

Lemma patchSubscription_empty (env : Env) (namespace : string) (channel : Channelable.t)
      (m : Machine) (patch : string) :
  CreateMergePatch env channel (desired channel (sub m)) = Ok patch ->
  (String.length patch <= 2)%nat ->
  patchSubscription env namespace channel m = ((false, None), m).
Proof.
  intros Hpatch Hlen. unfold patchSubscription. run_monad. rewrite Hpatch.
  apply Nat.leb_le in Hlen. now rewrite Hlen.
Qed.

Lemma patchSubscription_written (env : Env) (namespace : string) (channel : Channelable.t)
      (m : Machine) (patch : string) (resourceClient : ResourceClient) :
  CreateMergePatch env channel (desired channel (sub m)) = Ok patch ->
  (2 < String.length patch)%nat ->
  ResourceInterface env namespace (Channelable.GVK channel) = Ok resourceClient ->
  resourceClient (Channelable.Name channel) patch = Ok tt ->
  patchSubscription env namespace channel m
  = ((true, None), afterPatch namespace channel patch m).
Proof.
  intros Hpatch Hlen Hrc Hp.
  unfold patchSubscription, callResourceInterface, callPatch. run_monad. rewrite Hpatch.
  apply Nat.leb_gt in Hlen. now rewrite Hlen, Hrc, Hp.
Qed.

Lemma patchSubscription_patch_fails (env : Env) (namespace : string) (channel : Channelable.t)
      (m : Machine) (patch : string) (resourceClient : ResourceClient) (err : error) :
  CreateMergePatch env channel (desired channel (sub m)) = Ok patch ->
  (2 < String.length patch)%nat ->
  ResourceInterface env namespace (Channelable.GVK channel) = Ok resourceClient ->
  resourceClient (Channelable.Name channel) patch = Err err ->
  patchSubscription env namespace channel m
  = ((false, Some err), afterPatch namespace channel patch m).
Proof.
  intros Hpatch Hlen Hrc Hp.
  unfold patchSubscription, callResourceInterface, callPatch. run_monad. rewrite Hpatch.
  apply Nat.leb_gt in Hlen. now rewrite Hlen, Hrc, Hp.
Qed.

(** Patching reads the Subscription and never writes it. *)
Lemma patchSubscription_sub (env : Env) (namespace : string) (channel : Channelable.t)
      (m : Machine) :
  sub (snd (patchSubscription env namespace channel m)) = sub m.
Proof.
  unfold patchSubscription, callResourceInterface, callPatch. run_monad.
  destruct (CreateMergePatch env channel (desired channel (sub m))) as [patch|e]; simpl; auto.
  destruct (String.length patch <=? 2)%nat; simpl; auto.
  destruct (ResourceInterface env namespace (Channelable.GVK channel)) as [rc|e]; simpl; auto.
  destruct (rc (Channelable.Name channel) patch); reflexivity.
Qed.

(** syncChannel always passes [isDeleted = false], so syncPhysicalChannel
    hands back exactly what patchSubscription returned. *)
Lemma syncPhysicalChannel_false (env : Env) (channel : Channelable.t) (m : Machine) :
  syncPhysicalChannel env channel false m
  = patchSubscription env (Subscription.Namespace (sub m)) channel m.
Proof.
  unfold syncPhysicalChannel. run_monad.
  destruct (patchSubscription env (Subscription.Namespace (sub m)) channel m)
    as [[patched [e|]] m1]; reflexivity.
Qed.

Lemma syncPhysicalChannel_sub (env : Env) (channel : Channelable.t) (m : Machine) :
  sub (snd (syncPhysicalChannel env channel false m)) = sub m.
Proof. rewrite syncPhysicalChannel_false. apply patchSubscription_sub. Qed.

(** Every error of the patch step, not-found included and deletion pending
    or not, comes out of syncChannel as PhysicalChannelSyncFailed. *)
Lemma syncChannel_patch_error (env : Env) (channel : Channelable.t) (m m1 : Machine)
      (patched : bool) (err : error) :
  patchSubscription env (Subscription.Namespace (sub m)) channel m = ((patched, Some err), m1) ->
  syncChannel env channel m
  = (Some (syncFailed channel err), withStatus (setAddedToChannel (notAddedToChannel err)) m1).
Proof.
  intros Hrun. unfold syncChannel, bind at 1.
  rewrite syncPhysicalChannel_false, Hrun. destruct patched; reflexivity.
Qed.

Lemma syncChannel_success (env : Env) (channel : Channelable.t) (m m1 : Machine)
      (patched : bool) :
  syncPhysicalChannel env channel false m = ((patched, None), m1) ->
  syncChannel env channel m
  = if IsZero (Subscription.DeletionTimestamp (sub m))
    then (if patched then Some (subscriberSync channel) else None,
          withStatus (setAddedToChannel condTrue) m1)
    else (if patched then Some (subscriberRemoved channel) else None, m1).
Proof.
  intros Hrun.
  pose proof (syncPhysicalChannel_sub env channel m) as Hsub. rewrite Hrun in Hsub.
  simpl in Hsub.
  unfold syncChannel, bind at 1. rewrite Hrun.
  destruct patched; run_monad; rewrite <- Hsub;
    destruct (IsZero (Subscription.DeletionTimestamp (sub m1))); reflexivity.
Qed.

(** C10. For a Subscription whose deletion timestamp is unset, a channel
    sync that returns without error marks the Subscription added-to-channel,
    both when a patch was written (the SubscriberSync event is returned) and
    when the patch was empty and nothing was written (no event). *)
Theorem syncChannel_marks_added_to_channel (env : Env) (channel : Channelable.t) (m : Machine) :
  IsZero (Subscription.DeletionTimestamp (sub m)) = true ->
  let namespace := Subscription.Namespace (sub m) in
  (forall patched m1,
      syncPhysicalChannel env channel false m = ((patched, None), m1) ->
      let '(event, m') := syncChannel env channel m in
      event = (if patched then Some (subscriberSync channel) else None) /\
      m' = withStatus (setAddedToChannel condTrue) m1 /\
      SubscriptionStatus.AddedToChannel (statusOf m') = Some condTrue /\
      IsAddedToChannel (statusOf m') = true) /\
  (forall patch resourceClient,
      CreateMergePatch env channel (desired channel (sub m)) = Ok patch ->
      (2 < String.length patch)%nat ->
      ResourceInterface env namespace (Channelable.GVK channel) = Ok resourceClient ->
      resourceClient (Channelable.Name channel) patch = Ok tt ->
      let '(event, m') := syncChannel env channel m in
      event = Some (subscriberSync channel) /\
      IsAddedToChannel (statusOf m') = true /\
      writes m' = writes m ++ [CallPatch namespace (Channelable.GVK channel)
                                         (Channelable.Name channel) patch]) /\
  (forall patch,
      CreateMergePatch env channel (desired channel (sub m)) = Ok patch ->
      (String.length patch <= 2)%nat ->
      let '(event, m') := syncChannel env channel m in
      event = None /\
      IsAddedToChannel (statusOf m') = true /\
      writes m' = writes m).
Proof.
  intros Hzero namespace. subst namespace. split; [|split].
  - intros patched m1 Hrun.
    rewrite (syncChannel_success env channel m m1 patched Hrun), Hzero.
    repeat split.
  - intros patch rc Hpatch Hlen Hrc Hp.
    pose proof (patchSubscription_written env _ channel m patch rc Hpatch Hlen Hrc Hp)
      as Hrun.
    rewrite <- syncPhysicalChannel_false in Hrun.
    rewrite (syncChannel_success env channel m _ true Hrun), Hzero.
    repeat split. unfold writes. simpl. rewrite !filter_app. simpl.
    now rewrite app_nil_r.
  - intros patch Hpatch Hlen.
    pose proof (patchSubscription_empty env (Subscription.Namespace (sub m)) channel m
                                        patch Hpatch Hlen) as Hrun.
    rewrite <- syncPhysicalChannel_false in Hrun.
    rewrite (syncChannel_success env channel m _ false Hrun), Hzero.
    repeat split.
Qed.

(** ** Idempotence of the sync *)

(** The working copy depends on the Subscription only through its metadata,
    its spec and its physical subscription. *)
Lemma desired_sameSpec (channel : Channelable.t) (a b : Subscription.t) :
  sameSpec a b ->
  SubscriptionStatus.Physical (Subscription.Status b)
  = SubscriptionStatus.Physical (Subscription.Status a) ->
  desired channel b = desired channel a.
Proof.
  unfold sameSpec. destruct a, b; simpl. intros Hspec Hphys.
  injection Hspec as -> -> -> -> -> -> -> -> ->.
  unfold desired, updateChannelAddSubscription, updateChannelRemoveSubscription, toAdd,
    deliverySpec, deadLetterOnly, PhysicalDLS.
  simpl. now rewrite Hphys.
Qed.

Lemma desired_idempotent (channel : Channelable.t) (s : Subscription.t) :
  IsZero (Subscription.DeletionTimestamp s) = true \/
  NoDup (uids (Channelable.Subscribers channel)) ->
  desired (desired channel s) s = desired channel s.
Proof.
  unfold desired. destruct (IsZero (Subscription.DeletionTimestamp s)).
  - intros _. apply updateChannelAddSubscription_idempotent.
  - intros [H|H]; [discriminate|]. now apply updateChannelRemoveSubscription_idempotent.
Qed.

(** C5. When the merge patch between the Channel and its working copy is
    empty (at most the two bytes of the empty JSON object), patchSubscription
    calls no client, issues no write and reports no change, and so does the
    sync built on it.  Hence, with a merge patch that is empty between equal
    objects, reconciling a converged pair (the working copy equals the
    Channel) produces zero writes; and the Channel a first pass converges to
    is converged for the second pass (the Subscription's metadata, spec and
    resolved URIs being the same; for a removal, the uids of the list being
    unique). *)
Theorem patchSubscription_empty_patch_no_write
        (env : Env) (namespace : string) (channel : Channelable.t) (m : Machine) :
  (forall patch,
      CreateMergePatch env channel (desired channel (sub m)) = Ok patch ->
      (String.length patch <= 2)%nat ->
      patchSubscription env namespace channel m = ((false, None), m) /\
      syncPhysicalChannel env channel false m = ((false, None), m) /\
      fst (syncChannel env channel m) = None /\
      calls (snd (syncChannel env channel m)) = calls m /\
      writes (snd (syncChannel env channel m)) = writes m) /\
  ((forall c, CreateMergePatch env c c = Ok "{}") ->
   desired channel (sub m) = channel ->
   patchSubscription env namespace channel m = ((false, None), m) /\
   fst (syncChannel env channel m) = None /\
   writes (snd (syncChannel env channel m)) = writes m) /\
  (IsZero (Subscription.DeletionTimestamp (sub m)) = true \/
   NoDup (uids (Channelable.Subscribers channel)) ->
   forall m2,
     sameSpec (sub m) (sub m2) ->
     physicalOf m2 = physicalOf m ->
     desired (desired channel (sub m)) (sub m2) = desired channel (sub m)).
Proof.
  assert (Hsync : forall patch,
             CreateMergePatch env channel (desired channel (sub m)) = Ok patch ->
             (String.length patch <= 2)%nat ->
             syncPhysicalChannel env channel false m = ((false, None), m) /\
             fst (syncChannel env channel m) = None /\
             calls (snd (syncChannel env channel m)) = calls m).
  { intros patch Hpatch Hlen.
    assert (Hrun : syncPhysicalChannel env channel false m = ((false, None), m)).
    { rewrite syncPhysicalChannel_false. now apply patchSubscription_empty with patch. }
    split; [exact Hrun|].
    rewrite (syncChannel_success env channel m m false Hrun).
    destruct (IsZero (Subscription.DeletionTimestamp (sub m))); split; reflexivity. }
  split; [|split].
  - intros patch Hpatch Hlen.
    destruct (Hsync patch Hpatch Hlen) as (H1 & H2 & H3).
    repeat split; auto.
    + now apply patchSubscription_empty with patch.
    + unfold writes. now rewrite H3.
  - intros Hrefl Hfix.
    assert (Hpatch : CreateMergePatch env channel (desired channel (sub m)) = Ok "{}").
    { rewrite Hfix. apply Hrefl. }
    destruct (Hsync "{}" Hpatch) as (H1 & H2 & H3); [simpl; lia|].
    repeat split; auto.
    + apply patchSubscription_empty with "{}"; [exact Hpatch | simpl; lia].
    + unfold writes. now rewrite H3.
  - intros Hconv m2 Hspec Hphys.
    rewrite (desired_sameSpec _ (sub m) (sub m2) Hspec Hphys).
    now apply desired_idempotent.
Qed.

(** ** Channel location *)

(** A successful trackAndFetchChannel leaves the Subscription alone and
    performs exactly one fetch, of the resolved reference. *)
Lemma trackAndFetchChannel_ok (env : Env) (ref : KReference.t) (m m1 : Machine)
      (obj : RuntimeObject) :
  trackAndFetchChannel env ref m = (Ok obj, m1) ->
  exists ref',
    resolvedRef env ref = Ok ref' /\
    sub m1 = sub m /\
    fetches m1 = fetches m ++ [CallListerGet ref' (Subscription.Namespace (sub m))
                                             (KReference.Name ref')].
Proof.
  unfold trackAndFetchChannel, resolvedRef, callResolveGroup, callTrackInNamespaceKReference,
    callListerForKReference, callListerGet, fetches.
  run_monad.
  destruct (KReferenceGroupEnabled env); simpl.
  - destruct (ResolveGroup env ref) as [ref'|e]; simpl; [|discriminate].
    destruct (TrackInNamespaceKReference env (sub m) ref'); simpl; [discriminate|].
    destruct (ListerForKReference env ref') as [l|e]; simpl; [|discriminate].
    destruct (l (Subscription.Namespace (sub m)) (KReference.Name ref')); simpl;
      [|discriminate].
    intros H. injection H as <- <-. exists ref'. simpl.
    repeat split. rewrite !filter_app. simpl. now rewrite !app_nil_r.
  - destruct (TrackInNamespaceKReference env (sub m) ref); simpl; [discriminate|].
    destruct (ListerForKReference env ref) as [l|e]; simpl; [|discriminate].
    destruct (l (Subscription.Namespace (sub m)) (KReference.Name ref)); simpl;
      [|discriminate].
    intros H. injection H as <- <-. exists ref. simpl.
    repeat split. rewrite !filter_app. simpl. now rewrite !app_nil_r.
Qed.

(** Whatever makes getChannel fail, ReconcileKind reports it as
    ChannelReferenceFailed and leaves the references condition Unknown. *)
Lemma ReconcileKind_getChannel_error (env : Env) (m m1 : Machine) (err : error) :
  getChannel env m = (Err err, m1) ->
  ReconcileKind env m
  = (Some (channelReferenceFailedEvent err),
     withStatus (setReferencesResolved (channelReferenceUnknown err)) m1).
Proof.
  intros H. unfold ReconcileKind, bind at 1. rewrite H. reflexivity.
Qed.

(** C7. When the Subscription's channel reference resolves to an object of
    the channel-class kind and the Channel fetched through the typed lister
    is not ready, or is ready without a backing-channel pointer, channel
    location fails with the not-ready error, the reconcile pass returns a
    ChannelReferenceFailed warning and marks the references condition Unknown
    with that reason, and the only fetch through a channelable lister is the
    one of the Subscription's own channel reference: the backing channel is
    never fetched. *)
Theorem getChannel_channel_class_not_ready
        (env : Env) (m m1 : Machine) (obj : RuntimeObject) (channel : Channel.t) :
  let s := sub m in
  let namespace := Subscription.Namespace s in
  let name := KReference.Name (Subscription.SpecChannel s) in
  trackAndFetchChannel env (Subscription.SpecChannel s) m = (Ok obj, m1) ->
  GroupVersionKind.Group (GetObjectKind obj) = "messaging.knative.dev" ->
  GroupVersionKind.Kind (GetObjectKind obj) = "Channel" ->
  TrackReference env (channelTrackerReference s) s = None ->
  ChannelsGet env namespace name = Ok channel ->
  Channel.IsReady channel = false \/ Channel.StatusChannel channel = None ->
  let m2 := mkMachine s ((calls m1 ++ [CallTrackReference (channelTrackerReference s)])
                           ++ [CallChannelsGet namespace name]) in
  getChannel env m = (Err channelNotReady, m2) /\
  ReconcileKind env m
  = (Some (channelReferenceFailedEvent channelNotReady),
     withStatus (setReferencesResolved (channelReferenceUnknown channelNotReady)) m2) /\
  exists ref,
    resolvedRef env (Subscription.SpecChannel s) = Ok ref /\
    fetches (snd (ReconcileKind env m))
    = fetches m ++ [CallListerGet ref namespace (KReference.Name ref)].
Proof.
  intros s namespace name Hfetch Hgroup Hkind Htrack Hget Hready m2.
  destruct (trackAndFetchChannel_ok env _ m m1 obj Hfetch) as (ref & Href & Hsub & Hf).
  assert (Hch : getChannel env m = (Err channelNotReady, m2)).
  { unfold getChannel, bind at 1. unfold getSub at 1. unfold bind at 1.
    fold s. rewrite Hfetch.
    unfold isV1Channel. simpl. rewrite Hgroup, Hkind. simpl.
    unfold callTrackReference, callChannelsGet. run_monad.
    rewrite Hsub. fold s namespace name.
    change (TrackerReference.mk _ _ _ _) with (channelTrackerReference s).
    rewrite Htrack, Hget. subst m2.
    destruct Hready as [H|H]; rewrite H; [|destruct (Channel.IsReady channel)];
      reflexivity. }
  split; [exact Hch|].
  pose proof (ReconcileKind_getChannel_error env m m2 _ Hch) as Hrec.
  split; [exact Hrec|].
  exists ref. split; [exact Href|].
  rewrite Hrec. unfold withStatus, modifyStatus, fetches in *. simpl.
  rewrite !filter_app. simpl. rewrite !app_nil_r. exact Hf.
Qed.

(** * Concrete scenarios *)

(** Uid uniqueness on a two-entry list. *)
Lemma sync_preserves_uid_uniqueness_witness :
  NoDup (uids (Channelable.Subscribers Scenario.imc)) /\
  NoDup (uids (Channelable.Subscribers
                 (updateChannelAddSubscription Scenario.imc Scenario.subX))).
Proof.
  assert (H : NoDup (uids (Channelable.Subscribers Scenario.imc))).
  { simpl. repeat constructor; simpl; intuition discriminate. }
  split; [exact H|].
  exact (proj1 (sync_preserves_uid_uniqueness Scenario.imc Scenario.subX H)).
Defined.

(** The merge on a Channel default that sets only retryCount. *)
Lemma deliverySpec_channel_default_all_five_witness :
  exists d,
    deliverySpec Scenario.subX Scenario.imc = Some d /\
    DeliverySpec.Retry d = Some 3%Z /\ DeliverySpec.Timeout d = None.
Proof.
  destruct (deliverySpec_channel_default_all_five
              Scenario.subX Scenario.imc Scenario.retryOnly eq_refl eq_refl)
    as (d & Hd & _ & _ & Hretry & Htimeout & _).
  - right. right. left. discriminate.
  - exists d. repeat split; assumption.
Defined.

(** C1. Finalizing a deletion-pending Subscription whose Channel disappears
    between the fetch and the patch: the patch is issued, answers not-found,
    and FinalizeKind returns the PhysicalChannelSyncFailed warning and marks
    the Subscription not added to the Channel, because syncChannel calls
    syncPhysicalChannel with isDeleted = false; with isDeleted = true the
    same run returns no error. *)
Theorem FinalizeKind_patch_not_found :
  IsZero (Subscription.DeletionTimestamp Finalize.subGone) = false /\
  IsAddedToChannel (Subscription.Status Finalize.subGone) = true /\
  IsNotFound Scenario.notFound = true /\
  fst (FinalizeKind Finalize.envGone (Scenario.start Finalize.subGone))
  = Some (syncFailed Scenario.imc Scenario.notFound) /\
  SubscriptionStatus.AddedToChannel
    (statusOf (snd (FinalizeKind Finalize.envGone (Scenario.start Finalize.subGone))))
  = Some (notAddedToChannel Scenario.notFound) /\
  filter (fun c => isFetch c || isWrite c)
         (calls (snd (FinalizeKind Finalize.envGone (Scenario.start Finalize.subGone))))
  = Finalize.patchIssued /\
  fst (syncPhysicalChannel Finalize.envGone Scenario.imc true
                           (Scenario.start Finalize.subGone))
  = (false, None).
Proof. repeat split; vm_compute; reflexivity. Qed.

(** The fallback on a Channel that declares a dead-letter destination and
    has published its resolved URI. *)
Lemma resolveDeadLetterSink_channel_fallback_witness :
  let channel :=
    Channelable.mk Scenario.imcGVK "imc" []
                   (Some (DeliverySpec.mk (Some (Destination.mk (Some Scenario.channelRef) None))
                                          None None None None None))
                   [] (Some "http://channel-dls") in
  declaresNoDeadLetterSink (Subscription.SpecDelivery Scenario.subX) /\
  PhysicalSubscription.DeadLetterSinkURI
    (physicalOf (snd (resolveDeadLetterSink Scenario.env channel (Scenario.start Scenario.subX))))
  = Some "http://channel-dls".
Proof.
  intros channel.
  assert (H : declaresNoDeadLetterSink (Subscription.SpecDelivery Scenario.subX))
    by (left; reflexivity).
  split; [exact H|].
  pose proof (resolveDeadLetterSink_channel_fallback
                Scenario.env channel (Scenario.start Scenario.subX) H) as P.
  destruct (resolveDeadLetterSink Scenario.env channel (Scenario.start Scenario.subX))
    as [event m'].
  destruct P as (P & _).
  apply (P (Destination.mk (Some Scenario.channelRef) None) "http://channel-dls").
  - eexists. split; reflexivity.
  - reflexivity.
Defined.

(** A Subscription whose own dead-letter destination does not resolve, on a
    Channel that has a dead-letter sink. *)
Lemma resolveDeadLetterSink_own_destination_witness :
  let own := Destination.mk None (Some "http://own-dls") in
  let s := Subscription.mk "sub" "default" "X" 5 None Scenario.channelRef None None
                           (Some (DeliverySpec.mk (Some own) None None None None None))
                           Scenario.noStatus in
  let channel :=
    Channelable.mk Scenario.imcGVK "imc" []
                   (Some (DeliverySpec.mk (Some (Destination.mk (Some Scenario.channelRef) None))
                                          None None None None None))
                   [] (Some "http://channel-dls") in
  let failing := Scenario.envWith (ChannelableObject channel) Scenario.readyChannel
                                  (Err (Errorf "no such host" [])) (Ok tt) in
  declaresDeadLetterSink (Subscription.SpecDelivery s) own /\
  fst (resolveDeadLetterSink failing channel (Scenario.start s))
  = Some (ownDLSFailed (Errorf "no such host" [])).
Proof.
  intros own s channel failing.
  assert (H : declaresDeadLetterSink (Subscription.SpecDelivery s) own)
    by (eexists; split; reflexivity).
  split; [exact H|].
  pose proof (resolveDeadLetterSink_own_destination
                failing channel (Scenario.start s) own H) as P.
  destruct (resolveDeadLetterSink failing channel (Scenario.start s)) as [event m'].
  destruct P as (P & _).
  apply (P (Errorf "no such host" [])). reflexivity.
Defined.

(** A second sync of a converged pair. *)
Lemma patchSubscription_empty_patch_no_write_witness :
  let converged := desired Scenario.imc Scenario.subX in
  (forall c, CreateMergePatch Scenario.env c c = Ok "{}") /\
  desired converged Scenario.subX = converged /\
  writes (snd (syncChannel Scenario.env converged (Scenario.start Scenario.subX))) = [].
Proof.
  intros converged.
  assert (Hrefl : forall c, CreateMergePatch Scenario.env c c = Ok "{}").
  { intros c. simpl. unfold Scenario.mergePatch.
    destruct (Scenario.Channelable_eq_dec c c); [reflexivity | contradiction]. }
  assert (Hfix : desired converged Scenario.subX = converged) by reflexivity.
  split; [exact Hrefl|]. split; [exact Hfix|].
  destruct (patchSubscription_empty_patch_no_write
              Scenario.env "default" converged (Scenario.start Scenario.subX))
    as (_ & P & _).
  exact (proj2 (proj2 (P Hrefl Hfix))).
Defined.

(** The status fold on two status lists: generation 5 against 5 is ready,
    generation 4 against 5 is not found. *)
Lemma checkChannelStatus_fold_witness :
  let stale :=
    Channelable.mk Scenario.imcGVK "imc" [] None
                   [SubscriberStatus.mk "X" 4 ConditionTrue ""] None in
  let m := Scenario.start Scenario.subX in
  SubscriptionStatus.ChannelReady (statusOf (snd (checkChannelStatusForSubscription Scenario.imc m)))
  = Some condTrue /\
  SubscriptionStatus.ChannelReady (statusOf (snd (checkChannelStatusForSubscription stale m)))
  = Some (channelUnknownNotPresent Scenario.subX stale).
Proof.
  intros stale m. split.
  - pose proof (checkChannelStatus_fold Scenario.imc m) as P. cbv zeta in P.
    destruct (checkChannelStatusForSubscription Scenario.imc m) as [event m'].
    destruct P as (P & _).
    apply (P [] (SubscriberStatus.mk "X" 5 ConditionTrue "") []); try reflexivity.
    + split; reflexivity.
    + intros x [].
  - pose proof (checkChannelStatus_fold stale m) as P. cbv zeta in P.
    destruct (checkChannelStatusForSubscription stale m) as [event m'].
    destruct P as (_ & _ & P & _).
    apply P. intros x [<-|[]] [_ Hgen]. discriminate.
Defined.

(** A not-ready channel-class object that points at a backing channel. *)
Lemma getChannel_channel_class_not_ready_witness :
  let m := Scenario.start Factory.s in
  let m1 := snd (trackAndFetchChannel Factory.env Factory.factoryRef m) in
  trackAndFetchChannel Factory.env Factory.factoryRef m
  = (Ok (ChannelableObject Factory.factory), m1) /\
  Channel.IsReady Factory.notReady = false /\
  fst (ReconcileKind Factory.env m) = Some (channelReferenceFailedEvent channelNotReady) /\
  fetches (snd (ReconcileKind Factory.env m))
  = [CallListerGet Factory.factoryRef "default" "ch"].
Proof.
  intros m m1.
  assert (Hfetch : trackAndFetchChannel Factory.env (Subscription.SpecChannel (sub m)) m
                   = (Ok (ChannelableObject Factory.factory), m1)) by reflexivity.
  destruct (getChannel_channel_class_not_ready
              Factory.env m m1 (ChannelableObject Factory.factory) Factory.notReady
              Hfetch eq_refl eq_refl eq_refl eq_refl (or_introl eq_refl))
    as (_ & Hrec & ref & Href & Hf).
  split; [exact Hfetch|]. split; [reflexivity|]. split.
  - now rewrite Hrec.
  - rewrite Hf. injection Href as <-. reflexivity.
Defined.

(** A Subscription with a nil subscriber and an empty reply. *)
Lemma resolve_nil_or_empty_clears_uri_witness :
  let s := Subscription.mk "sub" "default" "X" 5 None Scenario.channelRef
                           None (Some Destination.empty) None
                           (SubscriptionStatus.mk None None None
                              (PhysicalSubscription.mk (Some "http://old") (Some "http://old")
                                                       None)) in
  let m := Scenario.start s in
  nilOrEmpty (Subscription.SpecSubscriber s) /\
  nilOrEmpty (Subscription.SpecReply s) /\
  PhysicalSubscription.SubscriberURI (physicalOf (snd (resolveSubscriber Scenario.env m))) = None /\
  PhysicalSubscription.ReplyURI (physicalOf (snd (resolveReply Scenario.env m))) = None.
Proof.
  intros s m.
  assert (Hs : nilOrEmpty (Subscription.SpecSubscriber s)) by (left; reflexivity).
  assert (Hr : nilOrEmpty (Subscription.SpecReply s)).
  { right. exists Destination.empty. repeat split. }
  destruct (resolve_nil_or_empty_clears_uri Scenario.env m) as (Ps & Pr).
  specialize (Ps Hs). specialize (Pr Hr).
  destruct (resolveSubscriber Scenario.env m) as [e1 m1].
  destruct (resolveReply Scenario.env m) as [e2 m2].
  split; [exact Hs|]. split; [exact Hr|]. split.
  - apply Ps.
  - apply Pr.
Defined.

(** Both sync paths: a first sync that writes the patch, and a sync of the
    converged Channel that writes nothing. *)
Lemma syncChannel_marks_added_to_channel_witness :
  let m := Scenario.start Scenario.subX in
  let converged := desired Scenario.imc Scenario.subX in
  IsZero (Subscription.DeletionTimestamp (sub m)) = true /\
  (fst (syncChannel Scenario.env Scenario.imc m) = Some (subscriberSync Scenario.imc) /\
   IsAddedToChannel (statusOf (snd (syncChannel Scenario.env Scenario.imc m))) = true) /\
  (fst (syncChannel Scenario.env converged m) = None /\
   IsAddedToChannel (statusOf (snd (syncChannel Scenario.env converged m))) = true).
Proof.
  intros m converged.
  assert (Hz : IsZero (Subscription.DeletionTimestamp (sub m)) = true) by reflexivity.
  split; [exact Hz|]. split.
  - destruct (syncChannel_marks_added_to_channel Scenario.env Scenario.imc m Hz)
      as (_ & P & _).
    specialize (P "{spec:{subscribers:[...]}}" (fun _ _ => Ok tt)
                  eq_refl ltac:(simpl; lia) eq_refl eq_refl).
    destruct (syncChannel Scenario.env Scenario.imc m) as [event m'].
    destruct P as (P1 & P2 & _). split; assumption.
  - destruct (syncChannel_marks_added_to_channel Scenario.env converged m Hz)
      as (_ & _ & P).
    specialize (P "{}" eq_refl ltac:(simpl; lia)).
    destruct (syncChannel Scenario.env converged m) as [event m'].
    destruct P as (P1 & P2 & _). split; assumption.
Defined.

(** * Further properties *)

(** ** What a run may touch *)

Lemma sameSpec_refl (a : Subscription.t) : sameSpec a a.
Proof. now destruct a. Qed.

Lemma sameSpec_trans (a b c : Subscription.t) : sameSpec a b -> sameSpec b c -> sameSpec a c.
Proof.
  unfold sameSpec. destruct a, b, c; simpl. intros H1 H2.
  injection H1 as -> -> -> -> -> -> -> -> ->. exact H2.
Qed.

Lemma sameSpec_withStatus (a : Subscription.t) (st : SubscriptionStatus.t) :
  sameSpec a (Subscription.withStatus a st).
Proof. now destruct a. Qed.

Lemma count_app (p : Call -> bool) (l1 l2 : list Call) :
  count p (l1 ++ l2) = count p l1 + count p l2.
Proof. unfold count. now rewrite filter_app, length_app. Qed.

Lemma frame_ret (A : Type) (a : A) : frame 0 0 0 (ret a).
Proof.
  intros m. split; [apply sameSpec_refl|]. exists []. simpl.
  rewrite app_nil_r. repeat split; apply Nat.le_0_l.
Qed.

Lemma frame_getSub : frame 0 0 0 getSub.
Proof.
  intros m. split; [apply sameSpec_refl|]. exists []. simpl.
  rewrite app_nil_r. repeat split; apply Nat.le_0_l.
Qed.

Lemma frame_modifyStatus (f : SubscriptionStatus.t -> SubscriptionStatus.t) :
  frame 0 0 0 (modifyStatus f).
Proof.
  intros m. split; [apply sameSpec_withStatus|]. exists []. simpl.
  rewrite app_nil_r. repeat split; apply Nat.le_0_l.
Qed.

Lemma frame_record (c : Call) :
  frame (count isWrite [c]) (count isFetch [c]) (count isResolve [c]) (record c).
Proof.
  intros m. split; [apply sameSpec_refl|]. exists [c]. simpl. repeat split; apply Nat.le_refl.
Qed.

Lemma frame_weaken (A : Type) (c : M A) (w f r w' f' r' : nat) :
  frame w f r c -> w <= w' -> f <= f' -> r <= r' -> frame w' f' r' c.
Proof.
  intros H Hw Hf Hr m. destruct (H m) as (Hs & cs & Hc & H1 & H2 & H3).
  split; [exact Hs|]. exists cs. repeat split; auto; lia.
Qed.

Lemma frame_bind (A B : Type) (c : M A) (k : A -> M B) (w1 f1 r1 w2 f2 r2 : nat) :
  frame w1 f1 r1 c -> (forall a, frame w2 f2 r2 (k a)) ->
  frame (w1 + w2) (f1 + f2) (r1 + r2) (bind c k).
Proof.
  intros Hc Hk m. unfold bind. specialize (Hc m).
  destruct (c m) as [a m1]. simpl in Hc. destruct Hc as (Hs1 & cs1 & Hc1 & Hw1 & Hf1 & Hr1).
  destruct (Hk a m1) as (Hs2 & cs2 & Hc2 & Hw2 & Hf2 & Hr2).
  split; [exact (sameSpec_trans _ _ _ Hs1 Hs2)|].
  exists (cs1 ++ cs2). rewrite Hc2, Hc1, app_assoc, !count_app.
  repeat split; auto; lia.
Qed.

Ltac frame_leaf :=
  split;
  [ unfold sameSpec; destruct (sub _); reflexivity
  | eexists; split;
    [ first [ symmetry; apply app_nil_r | rewrite <- ?app_assoc; reflexivity ]
    | unfold count; simpl; repeat split; lia ] ].

Ltac frame_cases :=
  repeat match goal with
         | |- context [match ?x with _ => _ end] =>
             lazymatch x with
             | context [match _ with _ => _ end] => fail
             | sub _ => fail
             | _ => destruct x eqn:?; simpl
             end
         end.

Ltac frame_brute := intros m; run_monad; frame_cases; frame_leaf.

Ltac frame_bind_with w1 f1 r1 w2 f2 r2 :=
  eapply frame_weaken;
  [ apply (frame_bind _ _ _ _ w1 f1 r1 w2 f2 r2) | simpl; lia | simpl; lia | simpl; lia ].

Ltac frame_done lem :=
  eapply frame_weaken; [ apply lem | unfold count; simpl; lia .. ].

Lemma frame_resolveSubscriber (env : Env) : frame 0 0 1 (resolveSubscriber env).
Proof.
  unfold resolveSubscriber, callResolveGroup, callURIFromDestinationV1. frame_brute.
Qed.

Lemma frame_resolveReply (env : Env) : frame 0 0 1 (resolveReply env).
Proof.
  unfold resolveReply, callURIFromDestinationV1. frame_brute.
Qed.

Lemma frame_resolveDeadLetterSink (env : Env) (channel : Channelable.t) :
  frame 0 0 1 (resolveDeadLetterSink env channel).
Proof.
  unfold resolveDeadLetterSink, callURIFromDestinationV1. frame_brute.
Qed.

Lemma frame_resolveSubscriptionURIs (env : Env) (channel : Channelable.t) :
  frame 0 0 3 (resolveSubscriptionURIs env channel).
Proof.
  unfold resolveSubscriptionURIs.
  frame_bind_with 0 0 0 0 0 3; [apply frame_modifyStatus|]. intros _.
  frame_bind_with 0 0 1 0 0 2; [apply frame_resolveSubscriber|]. intros [e|].
  { frame_done frame_ret. }
  frame_bind_with 0 0 1 0 0 1; [apply frame_resolveReply|]. intros [e|].
  { frame_done frame_ret. }
  frame_bind_with 0 0 1 0 0 0; [apply frame_resolveDeadLetterSink|]. intros [e|].
  { frame_done frame_ret. }
  frame_bind_with 0 0 0 0 0 0; [apply frame_modifyStatus|]. intros _. apply frame_ret.
Qed.

Lemma frame_patchSubscription (env : Env) (namespace : string) (channel : Channelable.t) :
  frame 1 0 0 (patchSubscription env namespace channel).
Proof.
  unfold patchSubscription, callResourceInterface, callPatch. frame_brute.
Qed.

Lemma frame_syncPhysicalChannel (env : Env) (channel : Channelable.t) (isDeleted : bool) :
  frame 1 0 0 (syncPhysicalChannel env channel isDeleted).
Proof.
  unfold syncPhysicalChannel.
  frame_bind_with 0 0 0 1 0 0; [apply frame_getSub|]. intros s.
  frame_bind_with 1 0 0 0 0 0; [apply frame_patchSubscription|].
  intros [patched [e|]]; [|apply frame_ret].
  destruct (isDeleted && IsNotFound e); apply frame_ret.
Qed.

Lemma frame_syncChannel (env : Env) (channel : Channelable.t) :
  frame 1 0 0 (syncChannel env channel).
Proof.
  unfold syncChannel.
  frame_bind_with 1 0 0 0 0 0; [apply frame_syncPhysicalChannel|].
  intros [patched [e|]].
  - destruct patched; (frame_bind_with 0 0 0 0 0 0; [apply frame_modifyStatus|]);
      intros _; apply frame_ret.
  - destruct patched;
      (frame_bind_with 0 0 0 0 0 0; [apply frame_getSub|]); intros s;
      destruct (IsZero (Subscription.DeletionTimestamp s));
      try (frame_bind_with 0 0 0 0 0 0; [first [apply frame_modifyStatus | apply frame_ret]|];
           intros _);
      apply frame_ret.
Qed.

Lemma frame_checkChannelStatusForSubscription (channel : Channelable.t) :
  frame 0 0 0 (checkChannelStatusForSubscription channel).
Proof.
  unfold checkChannelStatusForSubscription. frame_brute.
Qed.

Lemma frame_trackAndFetchChannel (env : Env) (ref : KReference.t) :
  frame 0 1 0 (trackAndFetchChannel env ref).
Proof.
  unfold trackAndFetchChannel, callResolveGroup, callTrackInNamespaceKReference,
    callListerForKReference, callListerGet.
  frame_brute.
Qed.

Lemma frame_getChannel (env : Env) : frame 0 2 0 (getChannel env).
Proof.
  unfold getChannel.
  frame_bind_with 0 0 0 0 2 0; [apply frame_getSub|]. intros s.
  frame_bind_with 0 1 0 0 1 0; [apply frame_trackAndFetchChannel|]. intros [obj|e].
  2: { frame_done frame_ret. }
  destruct (isV1Channel (GetObjectKind obj)).
  2: { frame_done frame_ret. }
  frame_bind_with 0 0 0 0 1 0.
  { unfold callTrackReference. frame_brute. }
  intros [e|].
  { frame_done frame_ret. }
  frame_bind_with 0 0 0 0 1 0.
  { unfold callChannelsGet. frame_brute. }
  intros [channel|e].
  2: { frame_done frame_ret. }
  destruct (Channel.IsReady channel), (Channel.StatusChannel channel) as [backing|];
    try (frame_done frame_ret).
  frame_bind_with 0 1 0 0 0 0; [apply frame_trackAndFetchChannel|].
  intros [obj'|e]; apply frame_ret.
Qed.

(** X1. A reconcile pass changes nothing of the Subscription but its status,
    and calls the collaborators in a bounded way: at most one patch, at most
    two lister fetches (the referenced object and, through a channel-class
    object, its backing channel) and at most three destination resolutions. *)
Theorem ReconcileKind_footprint (env : Env) (m : Machine) :
  let m' := snd (ReconcileKind env m) in
  sameSpec (sub m) (sub m') /\
  exists cs,
    calls m' = calls m ++ cs /\
    count isWrite cs <= 1 /\ count isFetch cs <= 2 /\ count isResolve cs <= 3.
Proof.
  revert m. change (frame 1 2 3 (ReconcileKind env)).
  unfold ReconcileKind.
  frame_bind_with 0 2 0 1 0 3; [apply frame_getChannel|]. intros [channel|e].
  2: { frame_bind_with 0 0 0 0 0 0; [apply frame_modifyStatus|]. intros _.
       frame_done frame_ret. }
  frame_bind_with 0 0 3 1 0 0; [apply frame_resolveSubscriptionURIs|]. intros [e|].
  { frame_done frame_ret. }
  frame_bind_with 1 0 0 0 0 0; [apply frame_syncChannel|]. intros [e|].
  { apply frame_ret. }
  frame_bind_with 0 0 0 0 0 0; [apply frame_checkChannelStatusForSubscription|].
  intros [e|]; apply frame_ret.
Qed.

(** X2. Finalization changes nothing of the Subscription but its status,
    issues at most one patch and at most two lister fetches, and never calls
    the destination resolver. *)
Theorem FinalizeKind_footprint (env : Env) (m : Machine) :
  let m' := snd (FinalizeKind env m) in
  sameSpec (sub m) (sub m') /\
  exists cs,
    calls m' = calls m ++ cs /\
    count isWrite cs <= 1 /\ count isFetch cs <= 2 /\ count isResolve cs = 0.
Proof.
  assert (H : frame 1 2 0 (FinalizeKind env)).
  { unfold FinalizeKind.
    frame_bind_with 0 2 0 1 0 0; [apply frame_getChannel|]. intros [channel|e].
    2: { destruct (IsNotFound e); frame_done frame_ret. }
    frame_bind_with 0 0 0 1 0 0; [apply frame_getSub|]. intros s.
    destruct (IsAddedToChannel (Subscription.Status s)).
    - apply frame_syncChannel.
    - frame_done frame_ret. }
  destruct (H m) as (Hs & cs & Hc & Hw & Hf & Hr).
  split; [exact Hs|]. exists cs. repeat split; auto. lia.
Qed.

(** ** Channel location never touches the Subscription *)

Lemma readsOnly_ret (A : Type) (a : A) : readsOnly (ret a).
Proof. intros m. reflexivity. Qed.

Lemma readsOnly_bind (A B : Type) (c : M A) (k : A -> M B) :
  readsOnly c -> (forall a, readsOnly (k a)) -> readsOnly (bind c k).
Proof.
  intros Hc Hk m. unfold bind. specialize (Hc m). destruct (c m) as [a m1].
  simpl in Hc. now rewrite Hk.
Qed.

Lemma readsOnly_trackAndFetchChannel (env : Env) (ref : KReference.t) :
  readsOnly (trackAndFetchChannel env ref).
Proof.
  unfold trackAndFetchChannel, callResolveGroup, callTrackInNamespaceKReference,
    callListerForKReference, callListerGet.
  intros m. run_monad. frame_cases; reflexivity.
Qed.

Lemma readsOnly_getChannel (env : Env) : readsOnly (getChannel env).
Proof.
  unfold getChannel.
  apply readsOnly_bind; [intros m; reflexivity|]. intros s.
  apply readsOnly_bind; [apply readsOnly_trackAndFetchChannel|]. intros [obj|e];
    [|apply readsOnly_ret].
  destruct (isV1Channel (GetObjectKind obj)); [|apply readsOnly_ret].
  apply readsOnly_bind; [intros m; reflexivity|]. intros [e|]; [apply readsOnly_ret|].
  apply readsOnly_bind; [intros m; reflexivity|]. intros [channel|e]; [|apply readsOnly_ret].
  destruct (Channel.IsReady channel), (Channel.StatusChannel channel) as [backing|];
    try apply readsOnly_ret.
  apply readsOnly_bind; [apply readsOnly_trackAndFetchChannel|].
  intros [obj'|e]; apply readsOnly_ret.
Qed.

(** ** Events and conditions go together *)

Ltac conditions := unfold referencesResolvedOf, addedToChannelOf, channelReadyOf, physicalOf,
                     statusOf, failedWith; simpl.

Ltac outcome_leaf :=
  conditions;
  repeat match goal with
         | |- _ /\ _ => split
         | |- exists _, _ => eexists
         | |- _ = _ => reflexivity
         | |- _ <> _ => discriminate
         | |- In _ _ => simpl; auto
         end.

Lemma resolveSubscriber_outcome (env : Env) (m : Machine) :
  let '(event, m') := resolveSubscriber env m in
  addedToChannelOf m' = addedToChannelOf m /\ channelReadyOf m' = channelReadyOf m /\
  match event with
  | None => referencesResolvedOf m' = referencesResolvedOf m
  | Some e =>
      exists fmt fmt' args,
        e = NewEvent EventTypeWarning subscriberResolveFailed fmt args /\
        referencesResolvedOf m'
        = Some (Condition.mk ConditionFalse subscriberResolveFailed fmt' args) /\
        physicalOf m' = physicalOf m
  end.
Proof.
  unfold resolveSubscriber, callResolveGroup, callURIFromDestinationV1.
  run_monad. frame_cases; outcome_leaf.
Qed.

Lemma resolveReply_outcome (env : Env) (m : Machine) :
  let '(event, m') := resolveReply env m in
  addedToChannelOf m' = addedToChannelOf m /\ channelReadyOf m' = channelReadyOf m /\
  match event with
  | None => referencesResolvedOf m' = referencesResolvedOf m
  | Some e =>
      exists fmt fmt' args,
        e = NewEvent EventTypeWarning replyResolveFailed fmt args /\
        referencesResolvedOf m'
        = Some (Condition.mk ConditionFalse replyResolveFailed fmt' args) /\
        physicalOf m' = physicalOf m
  end.
Proof.
  unfold resolveReply, callURIFromDestinationV1.
  run_monad. frame_cases; outcome_leaf.
Qed.

Lemma resolveDeadLetterSink_outcome (env : Env) (channel : Channelable.t) (m : Machine) :
  let '(event, m') := resolveDeadLetterSink env channel m in
  addedToChannelOf m' = addedToChannelOf m /\ channelReadyOf m' = channelReadyOf m /\
  match event with
  | None => referencesResolvedOf m' = referencesResolvedOf m
  | Some e =>
      exists fmt fmt' args,
        e = NewEvent EventTypeWarning deadLetterSinkResolveFailed fmt args /\
        referencesResolvedOf m'
        = Some (Condition.mk ConditionFalse deadLetterSinkResolveFailed fmt' args) /\
        PhysicalSubscription.DeadLetterSinkURI (physicalOf m') = None
  end.
Proof.
  unfold resolveDeadLetterSink, callURIFromDestinationV1.
  run_monad. frame_cases; outcome_leaf.
Qed.


(** X3. resolveSubscriptionURIs returns no event exactly when it leaves the
    references condition True.  When it returns an event, that event is a
    warning and the references condition is False with the event's reason and
    arguments; the reason is one of SubscriberResolveFailed,
    ReplyResolveFailed and DeadLetterSinkResolveFailed.  The other two
    conditions are never touched. *)
Theorem resolveSubscriptionURIs_outcome (env : Env) (channel : Channelable.t) (m : Machine) :
  let '(event, m') := resolveSubscriptionURIs env channel m in
  addedToChannelOf m' = addedToChannelOf m /\ channelReadyOf m' = channelReadyOf m /\
  (event = None <-> referencesResolvedOf m' = Some condTrue) /\
  match event with
  | None => True
  | Some e =>
      exists reason fmt fmt' args,
        In reason resolveReasons /\
        e = NewEvent EventTypeWarning reason fmt args /\
        referencesResolvedOf m' = Some (Condition.mk ConditionFalse reason fmt' args)
  end.
Proof.
  unfold resolveSubscriptionURIs, bind.
  destruct (MarkReferencesResolvedUnknown "Resolving" "Subscription resolution interrupted."
                                          [] m) as [u m0] eqn:E0.
  assert (H0 : addedToChannelOf m0 = addedToChannelOf m /\
               channelReadyOf m0 = channelReadyOf m).
  { revert E0. run_monad. intros E0. injection E0 as _ <-. split; reflexivity. }
  destruct H0 as [Ha0 Hc0].
  pose proof (resolveSubscriber_outcome env m0) as H1.
  destruct (resolveSubscriber env m0) as [[e1|] m1]; destruct H1 as (Ha1 & Hc1 & H1).
  { destruct H1 as (fmt & fmt' & args & -> & Hrr & _). unfold ret.
    repeat split; try congruence.
    - rewrite Hrr. discriminate.
    - exists subscriberResolveFailed, fmt, fmt', args. unfold resolveReasons. simpl. auto. }
  pose proof (resolveReply_outcome env m1) as H2.
  destruct (resolveReply env m1) as [[e2|] m2]; destruct H2 as (Ha2 & Hc2 & H2).
  { destruct H2 as (fmt & fmt' & args & -> & Hrr & _). unfold ret.
    repeat split; try congruence.
    - rewrite Hrr. discriminate.
    - exists replyResolveFailed, fmt, fmt', args. unfold resolveReasons. simpl. auto. }
  pose proof (resolveDeadLetterSink_outcome env channel m2) as H3.
  destruct (resolveDeadLetterSink env channel m2) as [[e3|] m3]; destruct H3 as (Ha3 & Hc3 & H3).
  { destruct H3 as (fmt & fmt' & args & -> & Hrr & _). unfold ret.
    repeat split; try congruence.
    - rewrite Hrr. discriminate.
    - exists deadLetterSinkResolveFailed, fmt, fmt', args. unfold resolveReasons. simpl. auto. }
  run_monad. conditions. unfold addedToChannelOf, channelReadyOf, statusOf in *.
  repeat split; congruence.
Qed.

(** ** The shape of a sync *)

Lemma writes_snoc_write (m : Machine) (c : Call) :
  isWrite c = true -> filter isWrite (calls m ++ [c]) = filter isWrite (calls m) ++ [c].
Proof. intros H. rewrite filter_app. simpl. now rewrite H. Qed.

Lemma writes_snoc_other (m : Machine) (c : Call) :
  isWrite c = false -> filter isWrite (calls m ++ [c]) = filter isWrite (calls m).
Proof. intros H. rewrite filter_app. simpl. rewrite H. apply app_nil_r. Qed.

Lemma patchSubscription_writes
      (env : Env) (namespace : string) (channel : Channelable.t) (m : Machine) :
  let '((patched, err), m') := patchSubscription env namespace channel m in
  sub m' = sub m /\
  ((writes m' = writes m /\ patched = false) \/
   ((exists c, writes m' = writes m ++ [c]) /\ (patched = true \/ err <> None))).
Proof.
  unfold patchSubscription, callResourceInterface, callPatch, writes. run_monad.
  frame_cases; (split; [reflexivity|]); rewrite ?filter_app; simpl; rewrite ?app_nil_r;
    first [ left; split; reflexivity
          | right; split; [eexists; reflexivity | first [left; reflexivity | right; discriminate]] ].
Qed.


Lemma syncChannel_outcome (env : Env) (channel : Channelable.t) (m : Machine) :
  let '(event, m') := syncChannel env channel m in
  let zero := IsZero (Subscription.DeletionTimestamp (sub m)) in
  referencesResolvedOf m' = referencesResolvedOf m /\
  channelReadyOf m' = channelReadyOf m /\
  physicalOf m' = physicalOf m /\
  match event with
  | None =>
      writes m' = writes m /\
      addedToChannelOf m' = (if zero then Some condTrue else addedToChannelOf m)
  | Some (NewEvent EventTypeNormal reason _ _) =>
      (exists c, writes m' = writes m ++ [c]) /\
      reason = (if zero then "SubscriberSync" else "SubscriberRemoved") /\
      addedToChannelOf m' = (if zero then Some condTrue else addedToChannelOf m)
  | Some (NewEvent EventTypeWarning reason _ _) =>
      reason = physicalChannelSyncFailed /\
      failedWith physicalChannelSyncFailed (addedToChannelOf m')
  | Some _ => False
  end.
Proof.
  pose proof (patchSubscription_writes env (Subscription.Namespace (sub m)) channel m)
    as Hshape.
  destruct (patchSubscription env (Subscription.Namespace (sub m)) channel m)
    as [[patched err] m1] eqn:Hrun.
  destruct Hshape as (Hsub & Hw).
  destruct err as [e|].
  - rewrite (syncChannel_patch_error env channel m m1 patched e Hrun).
    conditions. rewrite Hsub. repeat split. eexists. repeat split. discriminate.
  - rewrite <- syncPhysicalChannel_false in Hrun.
    rewrite (syncChannel_success env channel m m1 patched Hrun).
    destruct (IsZero (Subscription.DeletionTimestamp (sub m))), patched;
      conditions; rewrite ?Hsub; repeat split;
      try (destruct Hw as [[Hw Hp]|[Hw Hp]];
           [try discriminate; try exact Hw
           | try exact Hw;
             try (destruct Hp as [Hp|Hp]; [discriminate | now contradiction Hp])]).
Qed.

(** ** The status fold *)

Lemma getSubStatus_Ok (s : Subscription.t) (channel : Channelable.t) (ss : SubscriberStatus.t) :
  getSubStatus s channel = Ok ss <->
  getSubStatusLoop s (Channelable.StatusSubscribers channel) = Some ss.
Proof.
  unfold getSubStatus.
  destruct (getSubStatusLoop s (Channelable.StatusSubscribers channel)); split; congruence.
Qed.

(** X5. getSubStatus is sound and complete: the entry it returns is an entry
    of the Channel's status list carrying the Subscription's UID and its
    current generation, and it returns one whenever the list holds such an
    entry; otherwise it fails with the not-present error. *)
Theorem getSubStatus_sound_complete (s : Subscription.t) (channel : Channelable.t) :
  let statuses := Channelable.StatusSubscribers channel in
  let matches (st : SubscriberStatus.t) :=
    SubscriberStatus.UID st = Subscription.UID s /\
    SubscriberStatus.ObservedGeneration st = Subscription.Generation s in
  (forall ss, getSubStatus s channel = Ok ss -> In ss statuses /\ matches ss) /\
  ((exists st, In st statuses /\ matches st) <-> exists ss, getSubStatus s channel = Ok ss) /\
  ((forall st, In st statuses -> ~ matches st) <->
   getSubStatus s channel = Err (notPresent s channel)).
Proof.
  intros statuses matches.
  assert (Hsound : forall ss, getSubStatus s channel = Ok ss -> In ss statuses /\ matches ss).
  { intros ss H. apply getSubStatus_Ok, getSubStatusLoop_Some in H.
    destruct H as (l1 & l2 & Hl & Hm & _). split.
    - fold statuses in Hl. rewrite Hl. apply in_elt.
    - now apply statusMatches_true. }
  assert (Hnone : (forall st, In st statuses -> ~ matches st) <->
                  getSubStatusLoop s statuses = None).
  { rewrite getSubStatusLoop_None. split; intros H st Hin.
    - destruct (statusMatches s st) eqn:Hm; auto.
      apply statusMatches_true in Hm. now apply H in Hm.
    - intros Hm. apply statusMatches_true in Hm. rewrite (H st Hin) in Hm. discriminate. }
  split; [exact Hsound|]. split.
  - split.
    + intros (st & Hin & Hm).
      destruct (getSubStatus s channel) as [ss|e] eqn:Hget; [now exists ss|].
      exfalso.
      assert (Hloop : getSubStatusLoop s statuses = None).
      { unfold getSubStatus in Hget. fold statuses in Hget.
        destruct (getSubStatusLoop s statuses); [discriminate | reflexivity]. }
      exact (proj2 Hnone Hloop st Hin Hm).
    + intros (ss & H). exists ss. now apply Hsound.
  - rewrite Hnone. unfold getSubStatus. fold statuses.
    destruct (getSubStatusLoop s statuses); split; try discriminate; reflexivity.
Qed.



(** ** The outcome of a reconcile pass *)

Lemma frame_no_write (A : Type) (c : M A) (f r : nat) :
  frame 0 f r c -> forall m, writes (snd (c m)) = writes m.
Proof.
  intros H m. destruct (H m) as (_ & cs & Hc & Hw & _).
  unfold writes. rewrite Hc, filter_app.
  unfold count in Hw. destruct (filter isWrite cs); [apply app_nil_r | simpl in Hw; lia].
Qed.



(** ** The call discipline of channel location *)

Ltac unfold_getChannel :=
  unfold getChannel, trackAndFetchChannel, callResolveGroup, callTrackInNamespaceKReference,
    callListerForKReference, callListerGet, callTrackReference, callChannelsGet.


(** X9. Every lookup of channel location is made in the Subscription's
    namespace, the fetch of the backing channel included, whatever namespace
    the backing-channel pointer names. *)
Theorem getChannel_looks_up_in_own_namespace (env : Env) (m : Machine) :
  exists cs,
    calls (snd (getChannel env m)) = calls m ++ cs /\
    Forall (inOwnNamespace (sub m)) cs.
Proof.
  unfold_getChannel. run_monad. frame_cases;
    (eexists; split;
     [ first [ symmetry; apply app_nil_r | rewrite <- ?app_assoc; reflexivity ]
     | repeat constructor ]).
Qed.

(** ** Delivery policy: one source, never empty *)

(** X10. deliverySpec never returns an empty policy: a policy it returns
    has a dead-letter sink or at least one retry field set, so an entry's
    delivery is nil unless something is actually set. *)
Theorem deliverySpec_never_empty (sub : Subscription.t) (channel : Channelable.t)
        (d : DeliverySpec.t) :
  deliverySpec sub channel = Some d ->
  DeliverySpec.DeadLetterSink d <> None \/ anyRetryField d = true.
Proof.
  unfold deliverySpec, deadLetterOnly.
  destruct (Subscription.SpecDelivery sub) as [sd|], (Channelable.Delivery channel) as [chd|];
    destruct (PhysicalDLS sub) as [uri|]; simpl;
    try destruct (anyRetryField sd) eqn:Hsd; try destruct (anyRetryField chd) eqn:Hchd;
    intros H; try discriminate; injection H as <-; simpl;
    solve [ left; discriminate | right; assumption ].
Qed.

(** X11. The retry fields of the policy come from exactly one source, never
    a mix: with a delivery override on the Subscription they are the
    override's five fields and the result does not depend on the Channel at
    all, even when the override sets none of them and the Channel default
    sets some; without an override they are the five fields of the Channel
    default, if there is one. *)
Theorem deliverySpec_single_source (sub : Subscription.t) (channel : Channelable.t) :
  (forall sd,
      Subscription.SpecDelivery sub = Some sd ->
      (forall channel', deliverySpec sub channel' = deliverySpec sub channel) /\
      forall d, deliverySpec sub channel = Some d -> retryFields d = retryFields sd) /\
  (Subscription.SpecDelivery sub = None ->
   forall d,
     deliverySpec sub channel = Some d ->
     match Channelable.Delivery channel with
     | Some chd => retryFields d = retryFields chd
     | None => retryFields d = (None, None, None, None, None)
     end).
Proof.
  split.
  - intros sd Hsd. split.
    + intros channel'. unfold deliverySpec. rewrite Hsd.
      destruct (Channelable.Delivery channel), (Channelable.Delivery channel'); reflexivity.
    + intros d. unfold deliverySpec, deadLetterOnly. rewrite Hsd.
      assert (Hnone : anyRetryField sd = false ->
                      retryFields sd = (None, None, None, None, None)).
      { unfold anyRetryField, retryFields.
        destruct (DeliverySpec.BackoffDelay sd), (DeliverySpec.Retry sd),
          (DeliverySpec.BackoffPolicy sd), (DeliverySpec.Timeout sd),
          (DeliverySpec.RetryAfterMax sd); simpl; intros H; try discriminate; reflexivity. }
      destruct (Channelable.Delivery channel), (PhysicalDLS sub), (anyRetryField sd);
        intros H; try discriminate; injection H as <-;
        try reflexivity; symmetry; now apply Hnone.
  - intros Hsd d. unfold deliverySpec, deadLetterOnly. rewrite Hsd.
    destruct (Channelable.Delivery channel) as [chd|].
    + assert (Hnone : anyRetryField chd = false ->
                      retryFields chd = (None, None, None, None, None)).
      { unfold anyRetryField, retryFields.
        destruct (DeliverySpec.BackoffDelay chd), (DeliverySpec.Retry chd),
          (DeliverySpec.BackoffPolicy chd), (DeliverySpec.Timeout chd),
          (DeliverySpec.RetryAfterMax chd); simpl; intros H; try discriminate; reflexivity. }
      destruct (PhysicalDLS sub), (anyRetryField chd);
        intros H; try discriminate; injection H as <-;
        try reflexivity; symmetry; now apply Hnone.
    + destruct (PhysicalDLS sub); intros H; try discriminate; injection H as <-; reflexivity.
Qed.

(** ** The subscriber list: other entries, and removal after addition *)

Lemma otherEntries_addLoop (uid : UID) (entry : SubscriberSpec.t) (l : list SubscriberSpec.t) :
  SubscriberSpec.UID entry = uid ->
  otherEntries uid (addLoop uid entry l) = otherEntries uid l.
Proof.
  intros Hentry. unfold otherEntries. induction l as [|v rest IH]; simpl.
  - now rewrite Hentry, String.eqb_refl.
  - destruct (String.eqb (SubscriberSpec.UID v) uid) eqn:Hv; simpl; rewrite Hv; simpl.
    + reflexivity.
    + now rewrite IH.
Qed.

Lemma otherEntries_removeLoop (uid : UID) (l : list SubscriberSpec.t) :
  otherEntries uid (removeLoop uid l) = otherEntries uid l.
Proof.
  unfold otherEntries. induction l as [|v rest IH]; simpl; [reflexivity|].
  destruct (String.eqb (SubscriberSpec.UID v) uid) eqn:Hv; simpl.
  - reflexivity.
  - now rewrite Hv, IH.
Qed.

(** X12. Neither sync operation touches what belongs to others: the entries
    with a different uid are the same, in the same order, after an add or
    update and after a removal, on any list (uids unique or not), and the
    Channel's kind, name, delivery default and status are unchanged. *)
Theorem sync_leaves_other_entries (channel : Channelable.t) (sub : Subscription.t) :
  let uid := Subscription.UID sub in
  let added := updateChannelAddSubscription channel sub in
  let removed := updateChannelRemoveSubscription channel sub in
  otherEntries uid (Channelable.Subscribers added)
  = otherEntries uid (Channelable.Subscribers channel) /\
  otherEntries uid (Channelable.Subscribers removed)
  = otherEntries uid (Channelable.Subscribers channel) /\
  Channelable.withSubscribers added (Channelable.Subscribers channel) = channel /\
  Channelable.withSubscribers removed (Channelable.Subscribers channel) = channel.
Proof.
  simpl. repeat split.
  - apply otherEntries_addLoop. reflexivity.
  - apply otherEntries_removeLoop.
  - now destruct channel.
  - now destruct channel.
Qed.

Lemma removeLoop_addLoop (uid : UID) (entry : SubscriberSpec.t) (l : list SubscriberSpec.t) :
  SubscriberSpec.UID entry = uid ->
  removeLoop uid (addLoop uid entry l) = removeLoop uid l.
Proof.
  intros Hentry. induction l as [|v rest IH]; simpl.
  - now rewrite Hentry, String.eqb_refl.
  - destruct (String.eqb (SubscriberSpec.UID v) uid) eqn:Hv; simpl; rewrite Hv.
    + reflexivity.
    + now rewrite IH.
Qed.

(** X13. Removing a Subscription's entry after adding or updating it gives
    the same Channel as removing it right away; in particular, on a Channel
    that did not hold the Subscription, add followed by remove gives the
    Channel back. *)
Theorem remove_after_add (channel : Channelable.t) (sub : Subscription.t) :
  updateChannelRemoveSubscription (updateChannelAddSubscription channel sub) sub
  = updateChannelRemoveSubscription channel sub /\
  (~ In (Subscription.UID sub) (uids (Channelable.Subscribers channel)) ->
   updateChannelRemoveSubscription (updateChannelAddSubscription channel sub) sub = channel).
Proof.
  assert (H : updateChannelRemoveSubscription (updateChannelAddSubscription channel sub) sub
              = updateChannelRemoveSubscription channel sub).
  { unfold updateChannelRemoveSubscription, updateChannelAddSubscription,
      Channelable.withSubscribers. simpl. f_equal.
    apply removeLoop_addLoop. reflexivity. }
  split; [exact H|].
  intros Hnin. rewrite H. unfold updateChannelRemoveSubscription.
  rewrite removeLoop_absent by assumption. now destruct channel.
Qed.

(** ** Finalization *)

(** X14. Finalizing a Subscription that is not marked added to its Channel
    only locates the Channel: nothing is written, the Subscription is left
    exactly as it was, and the result is nil unless channel location failed
    with something other than not-found, in which case that error is returned
    as it is. *)
Theorem FinalizeKind_not_added (env : Env) (m : Machine) :
  IsAddedToChannel (Subscription.Status (sub m)) = false ->
  let '(event, m') := FinalizeKind env m in
  sub m' = sub m /\
  writes m' = writes m /\
  m' = snd (getChannel env m) /\
  event = match fst (getChannel env m) with
          | Ok _ => None
          | Err e => if IsNotFound e then None else Some e
          end.
Proof.
  intros Hadded. unfold FinalizeKind, bind.
  pose proof (readsOnly_getChannel env m) as Hg.
  pose proof (frame_no_write _ _ _ _ (frame_getChannel env) m) as Hw.
  destruct (getChannel env m) as [[channel|e] m1]; simpl in *.
  - unfold getSub. rewrite Hg, Hadded. unfold ret. repeat split; assumption.
  - destruct (IsNotFound e); unfold ret; repeat split; assumption.
Qed.

(** X15. Finalization tolerates a Channel that is already gone: when the
    lister answers the fetch of the Subscription's channel reference with
    not-found, FinalizeKind returns nil, whether or not the Subscription is
    marked added to the Channel, writes nothing and leaves the Subscription
    as it was. *)
Theorem FinalizeKind_channel_gone
        (env : Env) (m : Machine) (ref : KReference.t) (chLister : Lister) (e : error) :
  let s := sub m in
  resolvedRef env (Subscription.SpecChannel s) = Ok ref ->
  TrackInNamespaceKReference env s ref = None ->
  ListerForKReference env ref = Ok chLister ->
  chLister (Subscription.Namespace s) (KReference.Name ref) = Err e ->
  IsNotFound e = true ->
  let '(event, m') := FinalizeKind env m in
  event = None /\ sub m' = sub m /\ writes m' = writes m.
Proof.
  intros s Href Htrack Hlister Hget Hnf. subst s.
  assert (Hch : fst (getChannel env m) = Err e).
  { unfold resolvedRef in Href. unfold_getChannel. run_monad.
    destruct (KReferenceGroupEnabled env); simpl;
      [rewrite Href | injection Href as Href; rewrite Href]; simpl;
      rewrite Htrack; simpl; rewrite Hlister; simpl; now rewrite Hget. }
  unfold FinalizeKind, bind.
  pose proof (readsOnly_getChannel env m) as Hg.
  pose proof (frame_no_write _ _ _ _ (frame_getChannel env) m) as Hw.
  destruct (getChannel env m) as [[channel|e'] m1]; simpl in *; [discriminate|].
  injection Hch as ->. rewrite Hnf. unfold ret. repeat split; assumption.
Qed.

(** X16. Finalizing a deletion-pending Subscription that is marked added to
    a located Channel, when the patch goes through: the single write is the
    merge patch between the Channel and the Channel without the
    Subscription's entry, the SubscriberRemoved event is returned and the
    Subscription's status is left as it was (it is not marked again). *)
Theorem FinalizeKind_removes
        (env : Env) (m m1 : Machine) (channel : Channelable.t) (patch : string)
        (resourceClient : ResourceClient) :
  let s := sub m in
  let namespace := Subscription.Namespace s in
  IsAddedToChannel (Subscription.Status s) = true ->
  IsZero (Subscription.DeletionTimestamp s) = false ->
  getChannel env m = (Ok channel, m1) ->
  CreateMergePatch env channel (updateChannelRemoveSubscription channel s) = Ok patch ->
  (2 < String.length patch)%nat ->
  ResourceInterface env namespace (Channelable.GVK channel) = Ok resourceClient ->
  resourceClient (Channelable.Name channel) patch = Ok tt ->
  let '(event, m') := FinalizeKind env m in
  event = Some (subscriberRemoved channel) /\
  sub m' = s /\
  writes m' = writes m ++ [CallPatch namespace (Channelable.GVK channel)
                                     (Channelable.Name channel) patch].
Proof.
  intros s namespace Hadded Hzero Hch Hpatch Hlen Hrc Hp.
  pose proof (readsOnly_getChannel env m) as Hg.
  pose proof (frame_no_write _ _ _ _ (frame_getChannel env) m) as Hw.
  rewrite Hch in Hg, Hw. simpl in Hg, Hw.
  unfold FinalizeKind, bind. rewrite Hch. unfold getSub. rewrite Hg. fold s.
  rewrite Hadded.
  assert (Hdesired : desired channel (sub m1) = updateChannelRemoveSubscription channel s).
  { unfold desired. rewrite Hg. fold s. now rewrite Hzero. }
  assert (Hrun : syncPhysicalChannel env channel false m1
                 = ((true, None), afterPatch namespace channel patch m1)).
  { rewrite syncPhysicalChannel_false, Hg. fold s namespace.
    apply patchSubscription_written with resourceClient; auto.
    now rewrite Hdesired. }
  rewrite (syncChannel_success env channel m1 _ true Hrun), Hg. fold s. rewrite Hzero.
  simpl. repeat split; auto.
  unfold writes in *. simpl. rewrite filter_app. simpl. f_equal.
  rewrite writes_snoc_other by reflexivity. exact Hw.
Qed.

(** ** Resolution: what is stored *)



(** X18. What a failed resolution leaves in the status differs by
    destination: a failed subscriber or reply resolution keeps all three
    stored URIs as they were, the stale one included, while a failed
    dead-letter resolution clears the stored dead-letter URI and keeps the
    other two. *)
Theorem failed_resolution_stored_uris (env : Env) (channel : Channelable.t) (m : Machine) :
  (fst (resolveSubscriber env m) <> None ->
   physicalOf (snd (resolveSubscriber env m)) = physicalOf m) /\
  (fst (resolveReply env m) <> None ->
   physicalOf (snd (resolveReply env m)) = physicalOf m) /\
  (fst (resolveDeadLetterSink env channel m) <> None ->
   physicalOf (snd (resolveDeadLetterSink env channel m))
   = PhysicalSubscription.mk (PhysicalSubscription.SubscriberURI (physicalOf m))
                             (PhysicalSubscription.ReplyURI (physicalOf m)) None).
Proof.
  split; [|split].
  - pose proof (resolveSubscriber_outcome env m) as H.
    destruct (resolveSubscriber env m) as [[e|] m']; simpl; intros Hev;
      [|now contradiction Hev].
    destruct H as (_ & _ & fmt & fmt' & args & _ & _ & H). exact H.
  - pose proof (resolveReply_outcome env m) as H.
    destruct (resolveReply env m) as [[e|] m']; simpl; intros Hev;
      [|now contradiction Hev].
    destruct H as (_ & _ & fmt & fmt' & args & _ & _ & H). exact H.
  - unfold resolveDeadLetterSink, callURIFromDestinationV1. run_monad.
    frame_cases; intros Hev; try (now contradiction Hev); reflexivity.
Qed.

(** ** A failed sync and a later finalization *)

Lemma failedWith_not_added (reason : string) (st : SubscriptionStatus.t) :
  failedWith reason (SubscriptionStatus.AddedToChannel st) -> IsAddedToChannel st = false.
Proof.
  intros (cond & Hc & Hs & _). unfold IsAddedToChannel. rewrite Hc.
  destruct (Condition.Status cond); [now contradiction Hs | reflexivity | reflexivity].
Qed.

(** X19. A sync that fails un-marks the Subscription: after syncChannel has
    returned its warning the Subscription is not marked added to the Channel,
    whatever it was before, so finalizing a Subscription that carries this
    status writes nothing: the entry an earlier pass may have added is not
    removed by it. *)
Theorem failed_sync_disables_removal (env : Env) (channel : Channelable.t) (m : Machine) :
  let '(event, m') := syncChannel env channel m in
  forall reason fmt args,
    event = Some (NewEvent EventTypeWarning reason fmt args) ->
    IsAddedToChannel (statusOf m') = false /\
    forall (env2 : Env) (s2 : Subscription.t) (cs : list Call),
      Subscription.Status s2 = statusOf m' ->
      writes (snd (FinalizeKind env2 (mkMachine s2 cs))) = filter isWrite cs.
Proof.
  pose proof (syncChannel_outcome env channel m) as H.
  destruct (syncChannel env channel m) as [event m']. cbv zeta in H.
  intros reason fmt args ->. destruct H as (_ & _ & _ & _ & Hfail).
  apply failedWith_not_added in Hfail. split; [exact Hfail|].
  intros env2 s2 cs Hs2.
  unfold FinalizeKind, bind.
  pose proof (readsOnly_getChannel env2 (mkMachine s2 cs)) as Hg.
  pose proof (frame_no_write _ _ _ _ (frame_getChannel env2) (mkMachine s2 cs)) as Hw.
  destruct (getChannel env2 (mkMachine s2 cs)) as [[ch|e] m2]; simpl in Hg, Hw.
  - unfold getSub. rewrite Hg. simpl. rewrite Hs2, Hfail. exact Hw.
  - destruct (IsNotFound e); exact Hw.
Qed.

(** ** Lookup after a sync *)






(** * Further scenarios *)

(** The merge of a Channel default that sets only retryCount is not empty. *)
Lemma deliverySpec_never_empty_witness :
  let d := DeliverySpec.mk None (Some 3%Z) None None None None in
  deliverySpec Scenario.subX Scenario.imc = Some d /\
  (DeliverySpec.DeadLetterSink d <> None \/ anyRetryField d = true).
Proof.
  intros d.
  assert (H : deliverySpec Scenario.subX Scenario.imc = Some d) by reflexivity.
  split; [exact H|].
  exact (deliverySpec_never_empty Scenario.subX Scenario.imc d H).
Defined.

(** An override that only names a dead-letter sink shuts out the retry count
    of the Channel default. *)
Lemma deliverySpec_single_source_witness :
  let sd := DeliverySpec.mk (Some (Destination.mk None (Some "http://own-dls")))
                            None None None None None in
  let s := Subscription.mk "sub" "default" "X" 5 None Scenario.channelRef None None (Some sd)
                           (SubscriptionStatus.mk None None None
                              (PhysicalSubscription.mk None None (Some "http://own-dls"))) in
  Subscription.SpecDelivery s = Some sd /\
  exists d, deliverySpec s Scenario.imc = Some d /\ DeliverySpec.Retry d = None.
Proof.
  intros sd s.
  assert (H : Subscription.SpecDelivery s = Some sd) by reflexivity.
  split; [exact H|].
  destruct (proj1 (deliverySpec_single_source s Scenario.imc) sd H) as (_ & Hfields).
  eexists. split; [reflexivity|].
  specialize (Hfields _ eq_refl).
  apply (f_equal (fun t => snd (fst (fst t)))) in Hfields. exact Hfields.
Defined.

(** Add then remove on a Channel that did not hold the Subscription. *)
Lemma remove_after_add_witness :
  let channel := Channelable.mk Scenario.imcGVK "imc" [Scenario.entry "A"] None [] None in
  ~ In (Subscription.UID Scenario.subX) (uids (Channelable.Subscribers channel)) /\
  updateChannelRemoveSubscription (updateChannelAddSubscription channel Scenario.subX)
                                  Scenario.subX
  = channel.
Proof.
  intros channel.
  assert (H : ~ In (Subscription.UID Scenario.subX) (uids (Channelable.Subscribers channel))).
  { simpl. intros [H|[]]. discriminate. }
  split; [exact H|].
  exact (proj2 (remove_after_add channel Scenario.subX) H).
Defined.

(** Finalizing a Subscription that was never added. *)
Lemma FinalizeKind_not_added_witness :
  let m := Scenario.start Scenario.subX in
  IsAddedToChannel (Subscription.Status (sub m)) = false /\
  fst (FinalizeKind Scenario.env m) = None /\
  writes (snd (FinalizeKind Scenario.env m)) = [].
Proof.
  intros m.
  assert (H : IsAddedToChannel (Subscription.Status (sub m)) = false) by reflexivity.
  split; [exact H|].
  pose proof (FinalizeKind_not_added Scenario.env m H) as P.
  destruct (FinalizeKind Scenario.env m) as [event m'].
  destruct P as (_ & Hw & _ & Hev). split; [exact Hev | exact Hw].
Defined.

(** Finalizing when the lister no longer has the Channel. *)
Lemma FinalizeKind_channel_gone_witness :
  let gone : Lister := fun _ _ => Err Scenario.notFound in
  let env := mkEnv false (fun ref => Ok ref) (fun _ _ => None) (fun _ => Ok gone)
                   (fun _ _ => None) (fun _ _ => Ok Scenario.readyChannel) (fun _ d => d)
                   (fun _ _ => Ok "http://dls") Scenario.mergePatch
                   (fun _ _ => Ok (fun _ _ => Ok tt)) in
  let m := Scenario.start Finalize.subGone in
  IsNotFound Scenario.notFound = true /\
  fst (FinalizeKind env m) = None /\
  writes (snd (FinalizeKind env m)) = [].
Proof.
  intros gone env m.
  split; [reflexivity|].
  pose proof (FinalizeKind_channel_gone env m Scenario.channelRef gone Scenario.notFound
                                        eq_refl eq_refl eq_refl eq_refl eq_refl) as P.
  destruct (FinalizeKind env m) as [event m'].
  destruct P as (Hev & _ & Hw). split; [exact Hev | exact Hw].
Defined.

(** Finalizing when the Channel is there and the patch goes through. *)
Lemma FinalizeKind_removes_witness :
  let m := Scenario.start Finalize.subGone in
  getChannel Scenario.env m = (Ok Scenario.imc, snd (getChannel Scenario.env m)) /\
  fst (FinalizeKind Scenario.env m) = Some (subscriberRemoved Scenario.imc) /\
  writes (snd (FinalizeKind Scenario.env m))
  = [CallPatch "default" Scenario.imcGVK "imc" "{spec:{subscribers:[...]}}"].
Proof.
  intros m.
  assert (H : getChannel Scenario.env m = (Ok Scenario.imc, snd (getChannel Scenario.env m)))
    by reflexivity.
  split; [exact H|].
  pose proof (FinalizeKind_removes Scenario.env m _ Scenario.imc
                                   "{spec:{subscribers:[...]}}" (fun _ _ => Ok tt)
                                   eq_refl eq_refl H eq_refl ltac:(simpl; lia)
                                   eq_refl eq_refl) as P.
  destruct (FinalizeKind Scenario.env m) as [event m'].
  destruct P as (Hev & _ & Hw). split; [exact Hev | exact Hw].
Defined.


(** A subscriber that fails to resolve keeps the stale URI. *)
Lemma failed_resolution_stored_uris_witness :
  let s := Subscription.mk "sub" "default" "X" 5 None Scenario.channelRef
                           (Some (Destination.mk None (Some "http://new"))) None None
                           (SubscriptionStatus.mk None None None
                              (PhysicalSubscription.mk (Some "http://old") None None)) in
  let failing := Scenario.envWith (ChannelableObject Scenario.imc) Scenario.readyChannel
                                  (Err (Errorf "no such host" [])) (Ok tt) in
  let m := Scenario.start s in
  fst (resolveSubscriber failing m) <> None /\
  PhysicalSubscription.SubscriberURI (physicalOf (snd (resolveSubscriber failing m)))
  = Some "http://old".
Proof.
  intros s failing m.
  assert (H : fst (resolveSubscriber failing m) <> None) by discriminate.
  split; [exact H|].
  rewrite (proj1 (failed_resolution_stored_uris failing Scenario.imc m) H). reflexivity.
Defined.

(** A failed removal patch un-marks the Subscription. *)
Lemma failed_sync_disables_removal_witness :
  let m := Scenario.start Finalize.subGone in
  fst (syncChannel Finalize.envGone Scenario.imc m)
  = Some (syncFailed Scenario.imc Scenario.notFound) /\
  IsAddedToChannel (Subscription.Status (sub m)) = true /\
  IsAddedToChannel (statusOf (snd (syncChannel Finalize.envGone Scenario.imc m))) = false.
Proof.
  intros m.
  assert (H : fst (syncChannel Finalize.envGone Scenario.imc m)
              = Some (syncFailed Scenario.imc Scenario.notFound)) by reflexivity.
  split; [exact H|]. split; [reflexivity|].
  pose proof (failed_sync_disables_removal Finalize.envGone Scenario.imc m) as P.
  destruct (syncChannel Finalize.envGone Scenario.imc m) as [event m'].
  simpl in H. exact (proj1 (P _ _ _ H)).
Defined.

